(** * my-rest-app: the REST contract between the Angular gateway and the
      Express back ends

    The development embeds three source files of the repository:

    - the in-memory users server ([express] application over the module-level
      array [users]): module [UsersServer];
    - the MySQL tasks server (async handlers over [db.query]): module
      [TasksServer];
    - the Angular [UserService] (HttpClient calls piped through
      [catchError]): module [Gateway].

    The JavaScript built-ins the handlers call ([parseInt], number to string
    conversion, [Math.max], [Array.prototype.findIndex], [splice]) live in
    module [Js]; the part of Express the handlers rely on (route matching,
    [res.json], [res.status], the default error handler) in module
    [Express].  The database behind [db.query] is not part of the
    repository: [TasksServer] describes it by the table of the schema, the
    effect of the four statements the handlers send, and a list that says
    which of the coming queries throw or are rejected.  The tasks server
    file declares no [db]: as shipped, every query throws a
    ReferenceError, and what is proved of the file as it stands is proved on
    databases of that kind ([as_shipped]). *)

From Stdlib Require Import ZArith String Ascii List Lia Decimal DecimalString DecimalZ DecimalPos.
From stdpp Require Import gmap strings list.

Local Set Warnings "-register-all".
Local Open Scope Z_scope.

(** ** JavaScript values and built-ins *)

Module Js.

(** JSON values, as [bodyParser.json()] hands them to a handler and as
    [res.json] serialises them.  Numbers that occur in the modelled code are
    entity ids and HTTP status codes, all integers. *)
Inductive json :=
| JNull
| JBool (b : bool)
| JNum (n : Z)
| JStr (s : string)
| JArr (xs : list json)
| JObj (o : gmap string json).

(** Errors a handler can throw or a promise can reject with. *)
Inductive error :=
| ReferenceError (name : string)     (* reading an undeclared identifier *)
| HeadersSent                        (* a second res.json on one response *)
| DbError (detail : string).         (* rejection of db.query *)

(** *** Characters *)

Definition code (c : ascii) : Z := Z.of_N (N_of_ascii c).

Definition is_digit (c : ascii) : bool := (48 <=? code c) && (code c <=? 57).

(** Strings are sequences of bytes, UTF-8 for what is not ASCII.  The
    white space of one byte: TAB, LF, VT, FF, CR and SP. *)
Definition is_space (c : ascii) : bool :=
  ((9 <=? code c) && (code c <=? 13)) || (code c =? 32).

(** The white space of two bytes: U+00A0, bytes C2 A0. *)
Definition is_space2 (a b : ascii) : bool :=
  (code a =? 194) && (code b =? 160).

(** The first byte of a white space of three bytes. *)
Definition leads_space3 (a : ascii) : bool :=
  (code a =? 225) || (code a =? 226) || (code a =? 227) || (code a =? 239).

(** The white space of three bytes: U+1680 (E1 9A 80), U+2000 to U+200A
    (E2 80 80 to E2 80 8A), U+2028 and U+2029 (E2 80 A8, E2 80 A9), U+202F
    (E2 80 AF), U+205F (E2 81 9F), U+3000 (E3 80 80) and U+FEFF
    (EF BB BF). *)
Definition is_space3 (a b c : ascii) : bool :=
  ((code a =? 225) && (code b =? 154) && (code c =? 128))
  || ((code a =? 226) && (code b =? 128)
      && (((128 <=? code c) && (code c <=? 138))
          || (code c =? 168) || (code c =? 169) || (code c =? 175)))
  || ((code a =? 226) && (code b =? 129) && (code c =? 159))
  || ((code a =? 227) && (code b =? 128) && (code c =? 128))
  || ((code a =? 239) && (code b =? 187) && (code c =? 191)).

Definition to_lower (c : ascii) : ascii :=
  if (65 <=? code c) && (code c <=? 90)
  then ascii_of_N (N_of_ascii c + 32) else c.

(** Value of a character as a digit of some radix up to 36, as parseInt
    reads it: 0-9, then a-z or A-Z for 10-35. *)
Definition digit_value (c : ascii) : option Z :=
  let n := code c in
  if (48 <=? n) && (n <=? 57) then Some (n - 48)
  else if (97 <=? n) && (n <=? 122) then Some (n - 87)
  else if (65 <=? n) && (n <=? 90) then Some (n - 55)
  else None.

(** *** Number to string

    [`${id}`] applies Number::toString to [id].  For a safe integer
    (magnitude at most 2^53 - 1) the result is its decimal digits, with a
    leading minus sign when negative.  Beyond that range a JavaScript number
    is not every integer and does not print as its exact digits: this
    function does not cover it. *)
Definition Number_toString (n : Z) : string :=
  NilZero.string_of_int (Z.to_int n).

(** The numbers a caller can pass where the source says [number], as far as
    this development follows them: a safe integer, or a natural number plus
    one half, which a double holds exactly below 2^52 (1.5 is [Half 1]). *)
Inductive number :=
| Integer (n : Z)
| Half (n : Z).

Definition well_formed (x : number) : Prop :=
  match x with
  | Integer n => Z.abs n <= 2 ^ 53 - 1
  | Half n => 0 <= n < 2 ^ 52
  end.

(** The integer a number is, when it is one. *)
Definition as_integer (x : number) : option Z :=
  match x with
  | Integer n => Some n
  | Half _ => None
  end.

(** Number::toString on these numbers: n + 1/2 prints as the digits of n,
    a point and a 5. *)
Definition number_text (x : number) : string :=
  match x with
  | Integer n => Number_toString n
  | Half n => (Number_toString n +:+ ".5")%string
  end.

(** *** parseInt (string) with no radix argument *)

(** The input without the white space and line terminators it starts
    with. *)
Fixpoint trim_start (s : string) : string :=
  match s with
  | String a s1 =>
      if is_space a then trim_start s1
      else if Ascii.eqb a "194" then
        match s1 with
        | String b s2 => if is_space2 a b then trim_start s2 else s
        | EmptyString => s
        end
      else if leads_space3 a then
        match s1 with
        | String b (String c s3) =>
            if is_space3 a b c then trim_start s3 else s
        | _ => s
        end
      else s
  | EmptyString => s
  end.

(** Longest prefix of [s] made of digits of radix [r], folded into its
    value; [None] when that prefix is empty. *)
Fixpoint digits_from (r : Z) (acc : Z) (s : string) : Z :=
  match s with
  | String c s' =>
      match digit_value c with
      | Some d => if d <? r then digits_from r (acc * r + d) s' else acc
      | None => acc
      end
  | EmptyString => acc
  end.

Definition starts_with_digit (r : Z) (s : string) : bool :=
  match s with
  | String c _ =>
      match digit_value c with Some d => d <? r | None => false end
  | EmptyString => false
  end.

Definition parse_digits (r : Z) (s : string) : option Z :=
  if starts_with_digit r s then Some (digits_from r 0 s) else None.

(** A leading sign, and the text after it. *)
Definition split_sign (s : string) : Z * string :=
  match s with
  | String c s' =>
      if Ascii.eqb c "-" then (-1, s')
      else if Ascii.eqb c "+" then (1, s')
      else (1, s)
  | EmptyString => (1, s)
  end.

(** With no radix argument the radix is 10, or 16 after a 0x or 0X
    prefix, which is then skipped. *)
Definition split_radix (s : string) : Z * string :=
  match s with
  | String c (String x s') =>
      if Ascii.eqb c "0" && (Ascii.eqb x "x" || Ascii.eqb x "X")
      then (16, s') else (10, s)
  | _ => (10, s)
  end.

(** [None] stands for NaN.  The value is the exact integer the digits
    denote; JavaScript rounds it to a double, which is the same number up to
    2^53. *)
Definition parseInt (input : string) : option Z :=
  let '(sign, s) := split_sign (trim_start input) in
  let '(radix, s) := split_radix s in
  match parse_digits radix s with
  | Some v => Some (sign * v)
  | None => None
  end.

(** *** Arrays *)

(** [Math.max(...xs)] for a non-empty argument list [x, ...xs].  The limit
    an engine puts on the number of spread arguments is not modelled. *)
Definition Math_max (x : Z) (xs : list Z) : Z := fold_left Z.max xs x.

(** [arr.findIndex(p)]: index of the first element satisfying [p]; [None]
    stands for -1. *)
Fixpoint findIndex {A} (p : A -> bool) (arr : list A) : option nat :=
  match arr with
  | [] => None
  | x :: arr' =>
      if p x then Some O
      else match findIndex p arr' with
           | Some i => Some (S i)
           | None => None
           end
  end.

(** [arr.splice(index, 1)]: the array without position [index], and the
    removed elements. *)
Definition splice1 {A} (arr : list A) (index : nat) : list A * list A :=
  (take index arr ++ drop (S index) arr,
   match arr !! index with Some x => [x] | None => [] end).

End Js.

Import Js.

(** ** The part of Express the handlers use *)

Module Express.

Inductive method := GET | POST | PATCH | DELETE.

(** A request that reaches a handler, as the handler sees it: [path] is the
    pathname with its percent-escapes decoded, [body] the object
    [bodyParser.json()] stored in [req.body] (the empty object when the
    request carries none).  What is answered before any handler runs is
    outside: malformed JSON (400 from body-parser) and a path parameter whose
    escapes do not decode (400 from the router); so are bodies that are
    arrays, and paths with an escaped slash. *)
Record request := {
  meth : method;
  path : string;
  body : gmap string json
}.

Inductive payload :=
| Empty                      (* nothing written: res.json(undefined) *)
| Json (j : json)
| ErrorPage (e : error)      (* page written by the default error handler *)
| NotFoundPage.              (* page written when no route matches *)

Record response := {
  status : Z;
  content : payload
}.

(** What a handler can reach while it runs: the state it closes over, the
    response object [res] (its current status code and what was sent, if
    anything) and the console. *)
Record ctx (S : Type) := {
  store : S;
  statusCode : Z;
  sent : option response;
  console : list (string * error)
}.
Arguments store {S}.
Arguments statusCode {S}.
Arguments sent {S}.
Arguments console {S}.

Definition fresh {S} (s : S) : ctx S :=
  {| store := s; statusCode := 200; sent := None; console := [] |}.

Inductive result (A : Type) :=
| Ok (a : A)
| Throw (e : error).
Arguments Ok {A}.
Arguments Throw {A}.

(** A handler body: state passing over [ctx], with exceptions. *)
Definition H (S A : Type) : Type := ctx S -> result A * ctx S.

Definition ret {S A} (a : A) : H S A := fun c => (Ok a, c).

Definition bind {S A B} (m : H S A) (k : A -> H S B) : H S B :=
  fun c =>
    match m c with
    | (Ok a, c') => k a c'
    | (Throw e, c') => (Throw e, c')
    end.

Definition throw {S A} (e : error) : H S A := fun c => (Throw e, c).

(** [try { m } catch (error) { handler }]: effects of [m] before the throw
    stay. *)
Definition try_catch {S A} (m : H S A) (handler : error -> H S A) : H S A :=
  fun c =>
    match m c with
    | (Ok a, c') => (Ok a, c')
    | (Throw e, c') => handler e c'
    end.

Definition get {S} : H S S := fun c => (Ok (store c), c).

Definition put {S} (s : S) : H S unit :=
  fun c => (Ok tt, {| store := s; statusCode := statusCode c;
                      sent := sent c; console := console c |}).

Definition console_error {S} (label : string) (e : error) : H S unit :=
  fun c => (Ok tt, {| store := store c; statusCode := statusCode c;
                      sent := sent c;
                      console := console c ++ [(label, e)] |}).

(** [res.status(code)] *)
Definition res_status {S} (code : Z) : H S unit :=
  fun c => (Ok tt, {| store := store c; statusCode := code;
                      sent := sent c; console := console c |}).

(** [res.json(v)], where [None] is [undefined]: JSON.stringify(undefined)
    is undefined and the response goes out with no content.  Headers can be
    written once. *)
Definition res_json {S} (v : option json) : H S unit :=
  fun c =>
    match sent c with
    | Some _ => (Throw HeadersSent, c)
    | None =>
        (Ok tt,
         {| store := store c; statusCode := statusCode c;
            sent := Some {| status := statusCode c;
                            content := match v with
                                       | Some j => Json j
                                       | None => Empty
                                       end |};
            console := console c |})
    end.

(** Evaluating an identifier that no scope declares. *)
Definition unbound_identifier {S} (name : string) : H S unit :=
  throw (ReferenceError name).

(** Outcome of one request. *)
Record outcome (S : Type) := {
  reply : option response;      (* what was written to the response *)
  uncaught : option error;      (* what the handler let escape, if anything *)
  store_after : S
}.
Arguments reply {S}.
Arguments uncaught {S}.
Arguments store_after {S}.

(** The router around a synchronous handler: an exception that leaves the
    handler reaches the default error handler, which answers 500 unless
    the response already went out. *)
Definition serve {S} (h : H S unit) (s : S) : outcome S :=
  match h (fresh s) with
  | (Ok _, c) =>
      {| reply := sent c; uncaught := None; store_after := store c |}
  | (Throw e, c) =>
      {| reply := match sent c with
                  | Some r => Some r
                  | None => Some {| status := 500; content := ErrorPage e |}
                  end;
         uncaught := Some e;
         store_after := store c |}
  end.

(** *** Route matching (non-strict, case-insensitive routing) *)

(** [lit] is a prefix of [p] up to letter case; the rest of [p]. *)
Fixpoint strip_prefix (lit p : string) : option string :=
  match lit, p with
  | EmptyString, _ => Some p
  | String a lit', String b p' =>
      if Ascii.eqb (to_lower a) (to_lower b) then strip_prefix lit' p'
      else None
  | String _ _, EmptyString => None
  end.

(** A route without parameters matches its text, with or without one
    trailing slash. *)
Definition match_literal (lit p : string) : bool :=
  match strip_prefix lit p with
  | Some rest => String.eqb rest "" || String.eqb rest "/"
  | None => false
  end.

(** One path segment: at least one character, none of them a slash, up to
    the end of the path or to one trailing slash. *)
Fixpoint segment (s : string) : option string :=
  match s with
  | EmptyString => None
  | String c s' =>
      if Ascii.eqb c "/" then None
      else if String.eqb s' "" || String.eqb s' "/"
           then Some (String c EmptyString)
           else match segment s' with
                | Some seg => Some (String c seg)
                | None => None
                end
  end.

(** A route [lit/:name]: the value of the parameter when the path
    matches. *)
Definition match_param (lit p : string) : option string :=
  match strip_prefix (lit +:+ "/") p with
  | Some rest => segment rest
  | None => None
  end.

(** Answer of the application when no route matches. *)
Definition no_route {S} : H S unit :=
  fun c =>
    match sent c with
    | Some _ => (Throw HeadersSent, c)
    | None => (Ok tt, {| store := store c; statusCode := 404;
                         sent := Some {| status := 404; content := NotFoundPage |};
                         console := console c |})
    end.

End Express.

Import Express.

Declare Scope handler_scope.
Delimit Scope handler_scope with handler.
Notation "x <- m ;; k" := (bind m (fun x => k))
  (at level 100, m at next level, right associativity) : handler_scope.
Notation "m ;; k" := (bind m (fun _ => k))
  (at level 100, right associativity) : handler_scope.

(** ** The in-memory users server *)

Module UsersServer.

Local Open Scope handler_scope.

(** An element of the array [users]: a JavaScript object whose property
    [id] holds a number (the two literals below, and every object pushed by
    the POST handler right after its [id] was assigned), kept apart from the
    object's other properties. *)
Record user := {
  uid : Z;
  props : gmap string json
}.

Definition user_json (u : user) : json :=
  JObj (<["id" := JNum (uid u)]> (props u)).

Definition users : list user :=
  [ {| uid := 1;
       props := {[ "name" := JStr "Mario Rossi";
                   "email" := JStr "mario@prova.com" ]} |};
    {| uid := 2;
       props := {[ "name" := JStr "Giulia Bianchi";
                   "email" := JStr "giulia@prova.com" ]} |} ]%string.

(** [app.get('/api/users')] *)
Definition get_users : H (list user) unit :=
  us <- get ;;
  res_json (Some (JArr (user_json <$> us))).

(** [users.length ? Math.max(...users.map(u => u.id)) + 1 : 1].  Ids are
    integers far below 2^53, where the addition on JavaScript numbers is
    exact. *)
Definition next_id (us : list user) : Z :=
  match uid <$> us with
  | [] => 1
  | x :: xs => Math_max x xs + 1
  end.

(** [app.post('/api/users')]: [newUser] is the request body itself, its
    [id] property written over. *)
Definition post_users (req_body : gmap string json) : H (list user) unit :=
  us <- get ;;
  let newUser := {| uid := next_id us; props := delete "id"%string req_body |} in
  put (us ++ [newUser]) ;;
  res_json (Some (user_json newUser)).

(** [user.id === id], where [id] is the result of parseInt: NaN is equal
    to nothing. *)
Definition id_is (id : option Z) (u : user) : bool :=
  match id with
  | Some n => uid u =? n
  | None => false
  end.

(** [app.delete('/api/users/:id')].  After the block of the [if] the source
    reads [esle] on a line of its own, followed by a block: automatic
    semicolon insertion makes that an expression statement, run whether or
    not the index was found, and then a block statement. *)
Definition delete_users (param_id : string) : H (list user) unit :=
  let id := parseInt param_id in
  us <- get ;;
  let index := findIndex (id_is id) us in
  match index with
  | Some i =>
      let '(rest, removed) := splice1 us i in
      put rest ;;
      res_json (user_json <$> head removed)
  | None => ret tt
  end ;;
  unbound_identifier "esle" ;;
  res_status 404 ;;
  res_json (Some (JObj {[ "error"%string := JStr "User non trovato" ]})).

Definition app (req : request) : H (list user) unit :=
  match meth req with
  | GET =>
      if match_literal "/api/users" (path req) then get_users else no_route
  | POST =>
      if match_literal "/api/users" (path req)
      then post_users (body req) else no_route
  | DELETE =>
      match match_param "/api/users" (path req) with
      | Some id => delete_users id
      | None => no_route
      end
  | PATCH => no_route
  end.

(** The server over time: the array after a sequence of requests, with the
    replies in order. *)
Fixpoint run (reqs : list request) (us : list user)
  : list (option response) * list user :=
  match reqs with
  | [] => ([], us)
  | r :: reqs' =>
      let o := serve (app r) us in
      let '(replies, us') := run reqs' (store_after o) in
      (reply o :: replies, us')
  end.

End UsersServer.

(** ** The MySQL tasks server *)

Module TasksServer.

Local Open Scope handler_scope.

(** A row of table [tasks]:
    [id INT AUTO_INCREMENT PRIMARY KEY, title VARCHAR(255) NOT NULL,
     description TEXT, completed BOOLEAN DEFAULT false]. *)
Record task := {
  task_id : Z;
  title : string;
  description : option string;
  completed : bool
}.

(** A row as the driver returns it; BOOLEAN is TINYINT(1), read back as 0
    or 1. *)
Definition task_json (t : task) : json :=
  JObj {[ "id"%string := JNum (task_id t);
          "title"%string := JStr (title t);
          "description"%string :=
            match description t with Some d => JStr d | None => JNull end;
          "completed"%string := JNum (if completed t then 1 else 0) ]}.

(** *** The engine's side of [WHERE id = ?]

    Modelled from the spec: the database engine is no code of the
    repository.  [req.params.id] is a string, bound as a string; the engine
    is taken to compare an integer column with a string as numbers, reading
    the longest numeric prefix of the string (optional sign, digits,
    fraction, exponent) and 0 when there is none. *)

Fixpoint span_digits (s : string) : string * string :=
  match s with
  | String c s' =>
      if is_digit c
      then let '(ds, rest) := span_digits s' in (String c ds, rest)
      else (EmptyString, s)
  | EmptyString => (EmptyString, EmptyString)
  end.

(** The numeric prefix as [(m, e)], standing for m * 10^e. *)
Definition sql_number (p : string) : Z * Z :=
  let '(sign, s) := split_sign (trim_start p) in
  let '(ip, s) := span_digits s in
  let '(fp, s) :=
    match s with
    | String "." s' => span_digits s'
    | _ => (EmptyString, s)
    end in
  match (ip +:+ fp)%string with
  | EmptyString => (0, 0)
  | ds =>
      let e :=
        match s with
        | String c s' =>
            if Ascii.eqb (to_lower c) "e"
            then let '(esign, s'') := split_sign s' in
                 match parse_digits 10 s'' with
                 | Some v => esign * v
                 | None => 0
                 end
            else 0
        | EmptyString => 0
        end in
      (sign * digits_from 10 0 ds, e - Z.of_nat (String.length fp))
  end.

Definition sql_eq (n : Z) (p : string) : bool :=
  let '(m, e) := sql_number p in
  if 0 <=? e then n =? m * 10 ^ e else n * 10 ^ (- e) =? m.

Definition matches (p : string) (t : task) : bool := sql_eq (task_id t) p.

(** *** The statements the handlers send *)

Inductive statement :=
| SelectAll                       (* SELECT * FROM tasks *)
| ToggleCompleted (p : string)    (* UPDATE tasks SET completed = NOT completed WHERE id = ? *)
| SelectById (p : string)         (* SELECT * FROM tasks WHERE id = ? *)
| DeleteById (p : string).        (* DELETE FROM tasks WHERE id = ? *)

Definition toggle (t : task) : task :=
  {| task_id := task_id t; title := title t;
     description := description t; completed := negb (completed t) |}.

(** Modelled from the spec: what the engine, which is no code of the
    repository, does with each statement on the table of the schema: the
    table after the statement, and the rows it returns. *)
Definition execute (q : statement) (rows : list task) : list task * list task :=
  match q with
  | SelectAll => (rows, rows)
  | ToggleCompleted p =>
      ((fun t => if matches p t then toggle t else t) <$> rows, [])
  | SelectById p => (rows, List.filter (matches p) rows)
  | DeleteById p => (List.filter (fun t => negb (matches p t)) rows, [])
  end.

(** The database: the table, and what happens to the coming evaluations of
    [db.query(...)], in order: [Some e] is one that throws [e] or whose
    promise rejects with [e] (it then has no effect on the table), [None]
    one that the engine runs; past the end of the list every query runs.

    part_003 itself neither declares [db] nor requires the module that
    exports the pool (part_002): as the file stands, evaluating [db] throws a
    ReferenceError, so every evaluation of [db.query(...)] has the fate
    [Some (ReferenceError "db")].  The entries [None] describe the file with
    the line [const db = require('./db')] of the tutorial text in place. *)
Record database := {
  table : list task;
  fate : list (option error)
}.

(** [await db.query(sql, [p])], inside a [try] *)
Definition db_query (q : statement) : H database (list task) :=
  d <- get ;;
  match fate d with
  | Some e :: fate' =>
      put {| table := table d; fate := fate' |} ;;
      throw e
  | ok =>
      let '(table', rows) := execute q (table d) in
      put {| table := table'; fate := tail ok |} ;;
      ret rows
  end.

Definition error_body (message : string) : option json :=
  Some (JObj {[ "error"%string := JStr message ]}).

(** [app.get('/api/tasks')] *)
Definition get_tasks : H database unit :=
  try_catch
    (rows <- db_query SelectAll ;;
     res_json (Some (JArr (task_json <$> rows))))
    (fun error =>
       console_error "Errore GET tasks" error ;;
       res_status 500 ;;
       res_json (error_body "Errore nel recupero tasks")).

(** [app.patch('/api/tasks/:id')] *)
Definition patch_task (id : string) : H database unit :=
  try_catch
    (db_query (ToggleCompleted id) ;;
     rows <- db_query (SelectById id) ;;
     res_json (task_json <$> head rows))
    (fun error =>
       console_error "Errore PATCH task" error ;;
       res_status 500 ;;
       res_json (error_body "Errore toggle task")).

(** [app.delete('/api/tasks/:id')] *)
Definition delete_task (id : string) : H database unit :=
  try_catch
    (db_query (DeleteById id) ;;
     res_json (Some (JObj {[ "success"%string := JBool true ]})))
    (fun error =>
       console_error "Errore DELETE task" error ;;
       res_status 500 ;;
       res_json (error_body "Errore eliminazione task")).

(** One request: the promise the async handler returns settles with the
    first component; the second holds the response and the database. *)
Definition handle (h : H database unit) (d : database)
  : result unit * ctx database := h (fresh d).

End TasksServer.

(** ** The Angular gateway: UserService *)

Module Gateway.

(** What comes back from the network for one call. *)
Inductive exchange :=
| NoAnswer                      (* connection refused, timeout, ... *)
| Answer (r : response).

Record call := {
  verb : method;
  url : string;
  data : option json
}.

(** What an observable can fail with: the error object HttpClient builds
    (status 0 when no answer came), or an [Error] made by the service. *)
Inductive failure :=
| HttpErrorResponse (status : Z) (content : payload)
| DomainError (message : string).

(** The one notification a HttpClient observable delivers. *)
Inductive notification :=
| Next (value : json)
| Failed (e : failure).

(** [this.http.get/post/delete]: a JSON answer with a 2xx status is the
    value; anything else is an error notification. *)
Definition http_request (http : call -> exchange) (c : call) : notification :=
  match http c with
  | NoAnswer => Failed (HttpErrorResponse 0 Empty)
  | Answer r =>
      if (200 <=? status r) && (status r <? 300)
      then match content r with
           | Json j => Next j
           | Empty => Next JNull
           | other => Failed (HttpErrorResponse (status r) other)
           end
      else Failed (HttpErrorResponse (status r) (content r))
  end.

(** [throwError(() => e)] *)
Definition throwError (factory : unit -> failure) : notification :=
  Failed (factory tt).

(** [source.pipe(catchError(selector))]; the selector may write to the
    console, whose new lines are the second component. *)
Definition catchError
    (selector : failure -> notification * list (string * failure))
    (source : notification) : notification * list (string * failure) :=
  match source with
  | Next v => (Next v, [])
  | Failed err => selector err
  end.

Definition apiUrl : string := "http://localhost:8080/api/users".

Definition getUsers (http : call -> exchange) :=
  catchError
    (fun err =>
       (throwError (fun _ => DomainError "Errore nel recupero degli utenti"),
        [("Errore nel recupero utenti"%string, err)]))
    (http_request http {| verb := GET; url := apiUrl; data := None |}).

Definition addUser (http : call -> exchange) (user : json) :=
  catchError
    (fun err =>
       (throwError (fun _ => DomainError "Errore nell’aggiunta dell’utente."),
        [("Errore nell’aggiunta utente"%string, err)]))
    (http_request http {| verb := POST; url := apiUrl; data := Some user |}).

(** The template literal of the source ends in two closing braces: the
    first closes the interpolation of [id], the second is text. *)
Definition removeUser (http : call -> exchange) (id : Z) :=
  catchError
    (fun err =>
       (throwError (fun _ => DomainError "Errore nella cancellazione dell’utente."),
        [("Errore nella cancellazione utente"%string, err)]))
    (http_request http {| verb := DELETE;
                     url := (apiUrl +:+ "/" +:+ Number_toString id +:+ "}")%string;
                     data := None |}).

(** [removeUser] again, for a number that need not be an integer:
    [removeUser http n] is [removeUser_number http (Integer n)]. *)
Definition removeUser_number (http : call -> exchange) (id : number) :=
  catchError
    (fun err =>
       (throwError (fun _ => DomainError "Errore nella cancellazione dell’utente."),
        [("Errore nella cancellazione utente"%string, err)]))
    (http_request http {| verb := DELETE;
                          url := (apiUrl +:+ "/" +:+ number_text id +:+ "}")%string;
                          data := None |}).

(** The pathname of a URL on the back end's origin. *)
Definition pathname (u : string) : option string :=
  strip_prefix "http://localhost:8080" u.

End Gateway.

Import UsersServer TasksServer Gateway.

(** ** Vocabulary of the statements *)

(** A create request. *)
Definition create (draft : gmap string json) : request :=
  {| meth := POST; path := "/api/users"; body := draft |}.

(** The [id] property of the object a reply carries. *)
Definition reply_id (r : option response) : option Z :=
  match r with
  | Some {| content := Json (JObj o) |} =>
      match o !! "id"%string with
      | Some (JNum n) => Some n
      | _ => None
      end
  | _ => None
  end.

(** The next [k] queries run. *)
Fixpoint all_run (k : nat) (f : list (option error)) : bool :=
  match k, f with
  | O, _ => true
  | S _, [] => true
  | S k', None :: f' => all_run k' f'
  | S _, Some _ :: _ => false
  end.

(** The row after UPDATE ... WHERE id = [p]. *)
Definition toggled (p : string) (t : task) : task :=
  if matches p t then toggle t else t.

(** The context in which a handler leaves through its [catch] block. *)
Definition caught (label message : string) (e : error) (d : database)
  : ctx database :=
  {| store := d;
     statusCode := 500;
     sent := Some {| status := 500;
                     content := Json (JObj {[ "error"%string := JStr message ]}) |};
     console := [(label, e)] |}.

(** The context in which a handler leaves after sending [r] from its [try]
    block. *)
Definition answered (r : response) (d : database) : ctx database :=
  {| store := d; statusCode := 200; sent := Some r; console := [] |}.

(** A sample row. *)
Definition t5 : task :=
  {| task_id := 5; title := "spesa"; description := Some "latte e pane";
     completed := false |}.

(** The exchanges HttpClient reports as errors: no answer, or an answer
    whose status is outside 2xx. *)
Definition refused (x : exchange) : bool :=
  match x with
  | NoAnswer => true
  | Answer r => negb ((200 <=? status r) && (status r <? 300))
  end.

(** The error object HttpClient builds for an exchange. *)
Definition raw_error (x : exchange) : failure :=
  match x with
  | NoAnswer => HttpErrorResponse 0 Empty
  | Answer r => HttpErrorResponse (status r) (content r)
  end.

(** Value of a decimal numeral read left to right from [acc]. *)
Fixpoint uint_value (acc : Z) (d : uint) : Z :=
  match d with
  | Nil => acc
  | D0 d => uint_value (acc * 10 + 0) d
  | D1 d => uint_value (acc * 10 + 1) d
  | D2 d => uint_value (acc * 10 + 2) d
  | D3 d => uint_value (acc * 10 + 3) d
  | D4 d => uint_value (acc * 10 + 4) d
  | D5 d => uint_value (acc * 10 + 5) d
  | D6 d => uint_value (acc * 10 + 6) d
  | D7 d => uint_value (acc * 10 + 7) d
  | D8 d => uint_value (acc * 10 + 8) d
  | D9 d => uint_value (acc * 10 + 9) d
  end.

(** Text at which the digits of a numeral end: nothing, or a character
    that is a digit in no radix. *)
Definition stops (rest : string) : Prop :=
  match rest with
  | String c _ => digit_value c = None
  | EmptyString => True
  end.

(** Text that stays within one path segment. *)
Fixpoint no_slash (s : string) : bool :=
  match s with
  | String c s' => negb (Ascii.eqb c "/") && no_slash s'
  | EmptyString => true
  end.

(** A back end that answers every call with the URL it was called at. *)
Definition echo_url (c : call) : exchange :=
  Answer {| status := 200; content := Json (JStr (url c)) |}.

(** ** The Angular component: UsersComponent *)

Module UsersComponent.

(** The fields of the component, the console, and the errors whose
    [message] went to [alert]. *)
Record component := {
  users : json;
  newUser : gmap string json;
  userIdToRemove : Z;
  logged : list (string * failure);
  alerted : list failure
}.

(** [{id: 0, name: '', email: ''}] *)
Definition blank : gmap string json :=
  {[ "id"%string := JNum 0;
     "name"%string := JStr EmptyString;
     "email"%string := JStr EmptyString ]}.

(** How a method ends: normally, or with a TypeError thrown inside the
    [next] callback (calling [push] or [filter] on a value that is no array,
    reading [id] of null). *)
Inductive ending :=
| Done (c : component)
| TypeError (c : component).

Definition state (e : ending) : component :=
  match e with
  | Done c => c
  | TypeError c => c
  end.

(** The constructor: field initialisers, then the subscription to
    [getUsers()]. *)
Definition constructor (http : call -> exchange) : component :=
  let '(n, lines) := Gateway.getUsers http in
  match n with
  | Next data =>
      {| users := data; newUser := blank; userIdToRemove := 0;
         logged := lines; alerted := [] |}
  | Failed err =>
      {| users := JArr []; newUser := blank; userIdToRemove := 0;
         logged := lines ++ [("Errore caricamento utenti"%string, err)];
         alerted := [] |}
  end.

(** [addUser()] *)
Definition addUser (http : call -> exchange) (c : component) : ending :=
  let '(n, lines) := Gateway.addUser http (JObj (newUser c)) in
  match n with
  | Next savedUser =>
      match users c with
      | JArr xs =>
          Done {| users := JArr (xs ++ [savedUser]); newUser := blank;
                  userIdToRemove := userIdToRemove c;
                  logged := logged c ++ lines; alerted := alerted c |}
      | _ =>
          TypeError {| users := users c; newUser := newUser c;
                       userIdToRemove := userIdToRemove c;
                       logged := logged c ++ lines; alerted := alerted c |}
      end
  | Failed err =>
      Done {| users := users c; newUser := newUser c;
              userIdToRemove := userIdToRemove c;
              logged := logged c ++ lines
                          ++ [("Errore aggiunta utente"%string, err)];
              alerted := alerted c |}
  end.

(** [user.id !== id] for one element of the array; [None] when reading
    [id] throws, which it does on null. *)
Definition differs (id : Z) (user : json) : option bool :=
  match user with
  | JNull => None
  | JObj o =>
      Some match o !! "id"%string with
           | Some (JNum n) => negb (n =? id)
           | _ => true
           end
  | _ => Some true
  end.

(** [xs.filter(user => user.id !== id)]; [None] when the callback throws. *)
Fixpoint filter_out (id : Z) (xs : list json) : option (list json) :=
  match xs with
  | [] => Some []
  | x :: xs' =>
      match differs id x with
      | None => None
      | Some keep =>
          match filter_out id xs' with
          | None => None
          | Some rest => Some (if keep then x :: rest else rest)
          end
      end
  end.

(** [removeUser(id)] *)
Definition removeUser (http : call -> exchange) (id : Z) (c : component)
  : ending :=
  let '(n, lines) := Gateway.removeUser http id in
  match n with
  | Next deleted =>
      match users c with
      | JArr xs =>
          match filter_out id xs with
          | Some kept =>
              Done {| users := JArr kept; newUser := newUser c;
                      userIdToRemove := userIdToRemove c;
                      logged := logged c ++ lines; alerted := alerted c |}
          | None =>
              TypeError {| users := users c; newUser := newUser c;
                           userIdToRemove := userIdToRemove c;
                           logged := logged c ++ lines; alerted := alerted c |}
          end
      | _ =>
          TypeError {| users := users c; newUser := newUser c;
                       userIdToRemove := userIdToRemove c;
                       logged := logged c ++ lines; alerted := alerted c |}
      end
  | Failed err =>
      Done {| users := users c; newUser := newUser c;
              userIdToRemove := userIdToRemove c;
              logged := logged c ++ lines;
              alerted := alerted c ++ [err] |}
  end.

(** The two-way binding of the form: the user types a name and an email. *)
Definition type_in (name email : string) (c : component) : component :=
  {| users := users c;
     newUser := <["name"%string := JStr name]>
                  (<["email"%string := JStr email]> (newUser c));
     userIdToRemove := userIdToRemove c;
     logged := logged c; alerted := alerted c |}.

End UsersComponent.

(** ** The component in front of the users server *)

(** The request the users server receives for a call of the gateway. *)
Definition to_request (c : call) : option request :=
  match pathname (url c) with
  | Some p =>
      Some {| meth := verb c; path := p;
              body := match data c with
                      | Some (JObj o) => o
                      | _ => ∅
                      end |}
  | None => None
  end.

(** The users server as the back end of the gateway: its answer to a call,
    and its array afterwards. *)
Definition exchange_with (us : list user) (c : call) : exchange * list user :=
  match to_request c with
  | Some r =>
      let o := serve (app r) us in
      (match reply o with Some resp => Answer resp | None => NoAnswer end,
       store_after o)
  | None => (NoAnswer, us)
  end.

Definition wire (us : list user) (c : call) : exchange :=
  (exchange_with us c).1.

(** The call [UserService.addUser] makes for a user object. *)
Definition post_call (user : gmap string json) : call :=
  {| verb := POST; url := apiUrl; data := Some (JObj user) |}.

(** The user fills the form and submits it: the component and the server
    afterwards. *)
Definition submit (name email : string)
    (w : UsersComponent.component * list user)
  : UsersComponent.component * list user :=
  let c := UsersComponent.type_in name email w.1 in
  (UsersComponent.state (UsersComponent.addUser (wire w.2) c),
   (exchange_with w.2 (post_call (UsersComponent.newUser c))).2).

(** A session of the page in front of a server that holds [us]: the
    component is constructed, then the form is submitted once for each pair
    of a name and an email. *)
Definition session (inputs : list (string * string)) (us : list user)
  : UsersComponent.component * list user :=
  fold_left (fun w i => submit i.1 i.2 w) inputs
            (UsersComponent.constructor (wire us), us).

(** The object the form holds when a name and an email were typed into the
    blank form. *)
Definition typed (i : string * string) : gmap string json :=
  <["name"%string := JStr i.1]>
    (<["email"%string := JStr i.2]> UsersComponent.blank).

(** A delete request for the id [n], written in decimal. *)
Definition delete_request (n : Z) : request :=
  {| meth := DELETE;
     path := ("/api/users/" +:+ Number_toString n)%string;
     body := ∅ |}.

(** The routes of the tasks server that the database engine of
    [TasksServer] serves, their handlers, and the number of queries each
    sends when none is rejected. *)
Inductive tasks_route :=
| GetTasks
| PatchTask (id : string)
| DeleteTask (id : string).

Definition route_handler (r : tasks_route) : H database unit :=
  match r with
  | GetTasks => get_tasks
  | PatchTask id => patch_task id
  | DeleteTask id => delete_task id
  end.

Definition queries_sent (r : tasks_route) : nat :=
  match r with
  | GetTasks => 1
  | PatchTask _ => 2
  | DeleteTask _ => 1
  end.

(** The error every evaluation of [db.query(...)] throws in part_003 as it
    stands. *)
Definition db_unbound : error := ReferenceError "db".

(** The tasks server as shipped, in front of a table, for [k] queries to
    come. *)
Definition as_shipped (rows : list task) (k : nat) : database :=
  {| table := rows; fate := replicate k (Some db_unbound) |}.




(** * Properties *)

(** ** Built-ins on sample inputs *)

Example parseInt_5 : parseInt "5" = Some 5. Proof. reflexivity. Qed.
Example parseInt_brace : parseInt "42}" = Some 42. Proof. reflexivity. Qed.
Example parseInt_neg : parseInt "  -17px" = Some (-17). Proof. reflexivity. Qed.
Example parseInt_hex : parseInt "0x1F" = Some 31. Proof. reflexivity. Qed.
Example parseInt_nan : parseInt "abc" = None. Proof. reflexivity. Qed.
Example parseInt_empty : parseInt "" = None. Proof. reflexivity. Qed.
Example parseInt_nbsp : parseInt (String "194" (String "160" "1")) = Some 1.
Proof. reflexivity. Qed.
Example toString_neg : Number_toString (-120) = "-120"%string. Proof. reflexivity. Qed.

(** ** Id assignment in the users store *)

Section NextId.

Lemma Math_max_snoc (x y : Z) (xs : list Z) :
  Math_max x (xs ++ [y]) = Z.max (Math_max x xs) y.
Proof. unfold Math_max. now rewrite fold_left_app. Qed.

Lemma Math_max_upper (xs : list Z) :
  forall x y, y ∈ x :: xs -> y <= Math_max x xs.
Proof.
  unfold Math_max.
  induction xs as [|z xs IH]; intros x y Hy; cbn.
  - apply list_elem_of_singleton in Hy. lia.
  - assert (Hm : Z.max x z <= fold_left Z.max xs (Z.max x z))
      by (apply IH; left).
    apply elem_of_cons in Hy as [Hy|Hy]; [subst; lia|].
    apply elem_of_cons in Hy as [Hy|Hy]; [subst; lia|].
    apply IH. now right.
Qed.

Lemma Math_max_member (xs : list Z) :
  forall x, Math_max x xs ∈ x :: xs.
Proof.
  unfold Math_max.
  induction xs as [|z xs IH]; intros x; cbn.
  - left.
  - specialize (IH (Z.max x z)).
    apply elem_of_cons in IH as [Heq|Hin].
    + rewrite Heq. destruct (Z.max_spec x z) as [[_ ->]|[_ ->]].
      * right; left.
      * left.
    + right; now right.
Qed.

(** The next id is above every id in the array. *)
Lemma next_id_above (us : list user) (u : user) :
  u ∈ us -> uid u < next_id us.
Proof.
  intros Hu. unfold next_id.
  assert (Hin : uid u ∈ uid <$> us) by now apply list_elem_of_fmap_2.
  destruct (uid <$> us) as [|x xs].
  - now apply elem_of_nil in Hin.
  - pose proof (Math_max_upper xs x (uid u) Hin). lia.
Qed.

Lemma next_id_snoc (us : list user) (u : user) :
  uid u = next_id us -> next_id (us ++ [u]) = next_id us + 1.
Proof.
  intros Hu. unfold next_id in *. rewrite fmap_app.
  change (uid <$> [u]) with [uid u].
  destruct (uid <$> us) as [|x xs].
  - unfold Math_max. cbn. lia.
  - change ((x :: xs) ++ [uid u]) with (x :: (xs ++ [uid u])).
    cbv iota. rewrite Math_max_snoc. lia.
Qed.

End NextId.

(** What POST does to the array and what it answers, in one equation. *)
Lemma serve_post_users (b : gmap string json) (us : list user) :
  let newUser := {| uid := next_id us; props := delete "id"%string b |} in
  serve (post_users b) us =
    {| reply := Some {| status := 200; content := Json (user_json newUser) |};
       uncaught := None;
       store_after := us ++ [newUser] |}.
Proof. reflexivity. Qed.

Lemma reply_id_post (b : gmap string json) (us : list user) :
  reply_id (reply (serve (app (create b)) us)) = Some (next_id us).
Proof.
  change (app (create b)) with (post_users b).
  rewrite serve_post_users. cbn. now rewrite lookup_insert_eq.
Qed.

Lemma run_cons (r : request) (reqs : list request) (us : list user) :
  run (r :: reqs) us =
    (reply (serve (app r) us) :: (run reqs (store_after (serve (app r) us))).1,
     (run reqs (store_after (serve (app r) us))).2).
Proof. cbn [run]. now destruct (run reqs _). Qed.

Lemma run_creates (drafts : list (gmap string json)) :
  forall us,
    reply_id <$> (run (create <$> drafts) us).1 =
    (fun i => Some (next_id us + Z.of_nat i)) <$> seq 0 (length drafts).
Proof.
  induction drafts as [|b drafts IH]; intros us; [reflexivity|].
  rewrite fmap_cons, run_cons. cbn [fst length seq].
  rewrite !fmap_cons, reply_id_post, IH. f_equal.
  - f_equal. lia.
  - change (app (create b)) with (post_users b). rewrite serve_post_users.
    cbn [store_after]. rewrite next_id_snoc by reflexivity.
    rewrite <- fmap_S_seq, <- list_fmap_compose.
    apply list_fmap_ext. intros _ i _. cbn. f_equal. lia.
Qed.

(** C2. A create assigns 1 on an empty array and otherwise the greatest id
    in the array plus one; starting from the empty array, the i-th create of
    any sequence of creates is answered with id i. *)
Theorem create_assigns_next_id :
  (forall draft us,
      store_after (serve (app (create draft)) us)
        = us ++ [ {| uid := next_id us; props := delete "id"%string draft |} ]
      /\ reply_id (reply (serve (app (create draft)) us)) = Some (next_id us))
  /\ next_id [] = 1
  /\ (forall us, us <> [] ->
        (exists u, u ∈ us /\ next_id us = uid u + 1)
        /\ (forall u, u ∈ us -> uid u <= next_id us - 1))
  /\ (forall drafts,
        reply_id <$> (run (create <$> drafts) []).1
          = (fun i => Some (Z.of_nat i)) <$> seq 1 (length drafts)).
Proof.
  split; [|split; [|split]].
  - intros draft us. split; [reflexivity | apply reply_id_post].
  - reflexivity.
  - intros us Hne. split.
    + unfold next_id. destruct us as [|u0 us]; [done|].
      cbn [fmap list_fmap].
      pose proof (Math_max_member (uid <$> us) (uid u0)) as Hm.
      change (uid u0 :: (uid <$> us)) with (uid <$> (u0 :: us)) in Hm.
      apply list_elem_of_fmap in Hm as (u & Hu & Hin).
      exists u. split; [exact Hin | now rewrite <- Hu].
    + intros u Hu. pose proof (next_id_above us u Hu). lia.
  - intros drafts. rewrite run_creates.
    rewrite <- fmap_S_seq, <- list_fmap_compose.
    apply list_fmap_ext. intros _ i _. cbn. f_equal. lia.
Qed.

Lemma create_assigns_next_id_witness :
  (exists u, u ∈ users /\ next_id users = uid u + 1)
  /\ (forall u, u ∈ users -> uid u <= next_id users - 1).
Proof.
  destruct create_assigns_next_id as (_ & _ & Hmax & _).
  apply (Hmax users). discriminate.
Defined.

(** ** What a create stores and returns *)

Lemma user_json_created (n : Z) (draft : gmap string json) :
  user_json {| uid := n; props := delete "id"%string draft |}
    = JObj (<["id"%string := JNum n]> draft).
Proof. unfold user_json. cbn [uid props]. now rewrite insert_delete_eq. Qed.

(** C6. A create appends one entity and returns it: the draft with [id] set
    to the id the server assigns, every other property as the client sent it,
    an [id] sent by the client making no difference; a list request that
    follows shows it last.  On the array with ids 1 and 2, the draft
    {name:"Ada", email:"ada@x.com"} comes back as {id:3, name:"Ada",
    email:"ada@x.com"}. *)
Theorem create_round_trip :
  (forall draft us,
      let o := serve (app (create draft)) us in
      let entity := <["id"%string := JNum (next_id us)]> draft in
      (exists stored,
          store_after o = us ++ [stored]
          /\ user_json stored = JObj entity)
      /\ reply o = Some {| status := 200; content := Json (JObj entity) |}
      /\ (forall k, k <> "id"%string -> entity !! k = draft !! k)
      /\ entity !! "id"%string = Some (JNum (next_id us))
      /\ (forall v,
            serve (app (create (<["id"%string := v]> draft))) us = o)
      /\ reply (serve (app {| meth := GET; path := "/api/users"; body := ∅ |})
                      (store_after o))
           = Some {| status := 200;
                     content := Json (JArr ((user_json <$> us) ++ [JObj entity])) |})
  /\ reply (serve (app (create {[ "name"%string := JStr "Ada";
                                  "email"%string := JStr "ada@x.com" ]}))
                  users)
       = Some {| status := 200;
                 content := Json (JObj {[ "id"%string := JNum 3;
                                          "name"%string := JStr "Ada";
                                          "email"%string := JStr "ada@x.com" ]}) |}.
Proof.
  split.
  - intros draft us o entity. subst o entity.
    change (app (create draft)) with (post_users draft).
    rewrite serve_post_users. cbn [store_after reply].
    rewrite user_json_created.
    split; [|split; [|split; [|split; [|split]]]].
    + eexists. split; [reflexivity|]. apply user_json_created.
    + reflexivity.
    + intros k Hk. now rewrite lookup_insert_ne.
    + apply lookup_insert_eq.
    + intros v.
      change (app (create (<["id"%string := v]> draft)))
        with (post_users (<["id"%string := v]> draft)).
      rewrite serve_post_users, delete_insert_eq, user_json_created.
      reflexivity.
    + change (app _) with get_users.
      unfold serve, get_users, bind, get, res_json, fresh.
      cbn [store sent statusCode reply].
      rewrite fmap_app. cbn [fmap list_fmap]. now rewrite user_json_created.
  - change (app (create ?d)) with (post_users d).
    rewrite serve_post_users. cbn [reply]. rewrite user_json_created.
    reflexivity.
Qed.

Lemma create_round_trip_witness :
  let draft : gmap string json :=
    {[ "name"%string := JStr "Ada"; "email"%string := JStr "ada@x.com" ]} in
  (<["id"%string := JNum (next_id users)]> draft) !! "name"%string
    = draft !! "name"%string.
Proof.
  intros draft.
  destruct create_round_trip as [Hall _].
  destruct (Hall draft users) as (_ & _ & Hkeep & _).
  apply Hkeep. discriminate.
Defined.

(** ** Distinct ids in the users store *)

Lemma serve_delete_users (p : string) (us : list user) :
  serve (delete_users p) us =
    match findIndex (id_is (parseInt p)) us with
    | Some i =>
        {| reply := Some {| status := 200;
                            content := match us !! i with
                                       | Some u => Json (user_json u)
                                       | None => Empty
                                       end |};
           uncaught := Some (ReferenceError "esle");
           store_after := take i us ++ drop (S i) us |}
    | None =>
        {| reply := Some {| status := 500;
                            content := ErrorPage (ReferenceError "esle") |};
           uncaught := Some (ReferenceError "esle");
           store_after := us |}
    end.
Proof.
  unfold serve, delete_users, bind, get.
  change (store (fresh us)) with us.
  destruct (findIndex _ us) as [i|]; [|reflexivity].
  unfold splice1. now destruct (us !! i).
Qed.

Lemma serve_get_users (us : list user) :
  store_after (serve get_users us) = us.
Proof. reflexivity. Qed.

Lemma serve_no_route (us : list user) :
  store_after (serve no_route us) = us.
Proof. reflexivity. Qed.

(** What a request can do to the array: nothing, append an entity under the
    next id, or take one position out. *)
Lemma store_after_cases (r : request) (us : list user) :
  let us' := store_after (serve (app r) us) in
  us' = us
  \/ (exists u, uid u = next_id us /\ us' = us ++ [u])
  \/ (exists i, us' = delete i us).
Proof.
  destruct r as [m p b]. unfold app. cbn [meth path body].
  destruct m.
  - left. destruct (match_literal _ p); reflexivity.
  - destruct (match_literal _ p); [|now left].
    right; left. rewrite serve_post_users. cbn [store_after]. now eexists.
  - now left.
  - destruct (match_param _ p) as [param|]; [|now left].
    rewrite serve_delete_users.
    destruct (findIndex _ us) as [i|]; [|now left].
    right; right. exists i. cbn [store_after]. now rewrite delete_take_drop.
Qed.

Lemma distinct_ids_step (r : request) (us : list user) :
  NoDup (uid <$> us) -> NoDup (uid <$> store_after (serve (app r) us)).
Proof.
  intros Hnd.
  destruct (store_after_cases r us) as [-> | [(u & Hu & ->) | (i & ->)]].
  - exact Hnd.
  - rewrite fmap_app. apply NoDup_app. split; [exact Hnd|]. split.
    + intros x Hx Hx'. cbn in Hx'. apply list_elem_of_singleton in Hx'. subst x.
      apply list_elem_of_fmap in Hx as (v & Hv & Hin).
      pose proof (next_id_above us v Hin). lia.
    + apply NoDup_singleton.
  - eapply sublist_NoDup; [exact Hnd|].
    apply fmap_sublist, sublist_delete.
Qed.

Lemma distinct_ids_run (reqs : list request) :
  forall us, NoDup (uid <$> us) -> NoDup (uid <$> (run reqs us).2).
Proof.
  induction reqs as [|r reqs IH]; intros us Hnd; [exact Hnd|].
  rewrite run_cons. cbn [snd]. apply IH. now apply distinct_ids_step.
Qed.

(** C9. Whatever requests the users server receives after it starts --
    creates and deletes in any order among them -- the ids in its array stay
    pairwise distinct. *)
Theorem ids_stay_distinct (reqs : list request) :
  NoDup (uid <$> (run reqs users).2).
Proof.
  apply distinct_ids_run. cbn.
  apply NoDup_cons_2; [|apply NoDup_singleton].
  intros H%list_elem_of_singleton. discriminate H.
Qed.

(** ** The tasks handlers as functions of the database *)

Lemma handle_get_tasks (d : database) :
  handle get_tasks d =
    match fate d with
    | Some e :: f =>
        (Ok tt, caught "Errore GET tasks" "Errore nel recupero tasks" e
                  {| table := table d; fate := f |})
    | f =>
        (Ok tt, answered {| status := 200;
                            content := Json (JArr (task_json <$> table d)) |}
                  {| table := table d; fate := tail f |})
    end.
Proof. destruct d as [rows [|[e|] f]]; reflexivity. Qed.

Lemma handle_patch_task (p : string) (d : database) :
  handle (patch_task p) d =
    match fate d with
    | Some e :: f =>
        (Ok tt, caught "Errore PATCH task" "Errore toggle task" e
                  {| table := table d; fate := f |})
    | None :: Some e :: f =>
        (Ok tt, caught "Errore PATCH task" "Errore toggle task" e
                  {| table := toggled p <$> table d; fate := f |})
    | f =>
        (Ok tt,
         answered {| status := 200;
                     content :=
                       match head (List.filter (matches p) (toggled p <$> table d)) with
                       | Some t => Json (task_json t)
                       | None => Empty
                       end |}
           {| table := toggled p <$> table d; fate := drop 2 f |})
    end.
Proof.
  destruct d as [rows [|[e|] [|[e'|] f]]]; try reflexivity;
    unfold handle, patch_task, try_catch, bind, db_query, get, put, ret,
      res_json, fresh, answered; cbn;
    now destruct (head _).
Qed.

Lemma handle_delete_task (p : string) (d : database) :
  handle (delete_task p) d =
    match fate d with
    | Some e :: f =>
        (Ok tt, caught "Errore DELETE task" "Errore eliminazione task" e
                  {| table := table d; fate := f |})
    | f =>
        (Ok tt,
         answered {| status := 200;
                     content := Json (JObj {[ "success"%string := JBool true ]}) |}
           {| table := List.filter (fun t => negb (matches p t)) (table d);
              fate := tail f |})
    end.
Proof. destruct d as [rows [|[e|] f]]; reflexivity. Qed.

(** C7. When the query of GET /api/tasks is rejected, the handler's promise
    still fulfils, the one response sent is 500 with body
    {error: "Errore nel recupero tasks"} and no row in it, the rejection is
    on the console and the table is as it was. *)
Theorem get_tasks_store_failure (d : database) (e : error) (f : list (option error)) :
  fate d = Some e :: f ->
  let '(settled, c) := handle get_tasks d in
  settled = Ok tt
  /\ sent c = Some {| status := 500;
                      content := Json (JObj {[ "error"%string :=
                                                 JStr "Errore nel recupero tasks" ]}) |}
  /\ console c = [("Errore GET tasks"%string, e)]
  /\ table (store c) = table d.
Proof.
  intros Hf. rewrite handle_get_tasks, Hf. cbn. auto.
Qed.

Lemma get_tasks_store_failure_witness :
  let d := {| table := [ {| task_id := 1; title := "spesa";
                            description := None; completed := false |} ];
              fate := [Some (DbError "ECONNREFUSED")] |} in
  let '(settled, c) := handle get_tasks d in
  settled = Ok tt
  /\ sent c = Some {| status := 500;
                      content := Json (JObj {[ "error"%string :=
                                                 JStr "Errore nel recupero tasks" ]}) |}
  /\ console c = [("Errore GET tasks"%string, DbError "ECONNREFUSED")]
  /\ table (store c) = [ {| task_id := 1; title := "spesa";
                            description := None; completed := false |} ].
Proof.
  exact (get_tasks_store_failure
           {| table := [ {| task_id := 1; title := "spesa";
                            description := None; completed := false |} ];
              fate := [Some (DbError "ECONNREFUSED")] |}
           (DbError "ECONNREFUSED") [] eq_refl).
Defined.

(** ** The tasks server as it stands *)

(** C3. In part_003 as it stands nothing declares [db]: the first query of a
    PATCH throws a ReferenceError inside the [try], the handler answers 500
    {error: "Errore toggle task"} and logs the error, and the table is as
    before: the completed flag of the task is not negated and no refreshed
    entity is sent.  A second PATCH goes the same way. *)
Theorem patch_as_shipped_toggles_nothing
    (p : string) (d : database) (f : list (option error)) :
  fate d = Some db_unbound :: Some db_unbound :: f ->
  let '(settled1, c1) := handle (patch_task p) d in
  let '(settled2, c2) := handle (patch_task p) (store c1) in
  settled1 = Ok tt
  /\ sent c1 = Some {| status := 500;
                       content := Json (JObj {[ "error"%string :=
                                                  JStr "Errore toggle task" ]}) |}
  /\ console c1 = [("Errore PATCH task"%string, ReferenceError "db")]
  /\ table (store c1) = table d
  /\ settled2 = Ok tt
  /\ sent c2 = sent c1
  /\ table (store c2) = table d.
Proof.
  intros Hf. rewrite handle_patch_task, Hf. cbn [caught store].
  rewrite handle_patch_task. cbn [fate table caught sent console store].
  repeat split; reflexivity.
Qed.

Lemma patch_as_shipped_toggles_nothing_witness :
  let '(settled1, c1) := handle (patch_task "5") (as_shipped [t5] 2) in
  let '(settled2, c2) := handle (patch_task "5") (store c1) in
  settled1 = Ok tt
  /\ sent c1 = Some {| status := 500;
                       content := Json (JObj {[ "error"%string :=
                                                  JStr "Errore toggle task" ]}) |}
  /\ console c1 = [("Errore PATCH task"%string, ReferenceError "db")]
  /\ table (store c1) = [t5]
  /\ settled2 = Ok tt
  /\ sent c2 = sent c1
  /\ table (store c2) = [t5].
Proof.
  exact (patch_as_shipped_toggles_nothing "5" (as_shipped [t5] 2) [] eq_refl).
Defined.

(** C4, as the claim states it, fails: the store holds no task 99, and
    PATCH /api/tasks/99 is answered 500 {error: "Errore toggle task"}. *)
Lemma patch_absent_is_not_404 :
  let d := as_shipped [t5] 1 in
  (forall t, t ∈ table d -> task_id t <> 99)
  /\ sent (handle (patch_task "99") d).2
       = Some {| status := 500;
                 content := Json (JObj {[ "error"%string :=
                                            JStr "Errore toggle task" ]}) |}
  /\ ~ (exists r, sent (handle (patch_task "99") d).2 = Some r /\ status r = 404).
Proof.
  split.
  - intros t Ht. apply list_elem_of_singleton in Ht. subst t. discriminate.
  - split; [reflexivity|].
    intros (r & Hr & Hs). cbn in Hr. injection Hr as <-. discriminate Hs.
Qed.

(** C4, amended. Whatever the path id, with a corresponding task or
    without, PATCH /api/tasks/:id does not answer 404: the handler has no
    branch for a task that is not found; it answers 500
    {error: "Errore toggle task"} when a query throws or is rejected, 200
    only when both queries have fulfilled; as the file stands the first query
    throws, the answer is the 500 and the table is not touched. *)
Theorem patch_has_no_404 (p : string) (d : database) :
  let '(settled, c) := handle (patch_task p) d in
  settled = Ok tt
  /\ (exists r,
        sent c = Some r
        /\ status r <> 404
        /\ if all_run 2 (fate d)
           then status r = 200
           else r = {| status := 500;
                       content := Json (JObj {[ "error"%string :=
                                                  JStr "Errore toggle task" ]}) |})
  /\ (forall f,
        fate d = Some db_unbound :: f ->
        sent c = Some {| status := 500;
                         content := Json (JObj {[ "error"%string :=
                                                    JStr "Errore toggle task" ]}) |}
        /\ console c = [("Errore PATCH task"%string, ReferenceError "db")]
        /\ table (store c) = table d).
Proof.
  rewrite handle_patch_task.
  destruct (fate d) as [|[e|] [|[e'|] f']];
    cbn [answered caught sent console store table all_run];
    (split; [reflexivity|]); (split; [eexists; repeat split; cbn; discriminate|]);
    intros f Hf; try discriminate Hf;
    injection Hf as -> _; repeat split; reflexivity.
Qed.

Lemma patch_has_no_404_witness :
  let '(settled, c) := handle (patch_task "99") (as_shipped [t5] 1) in
  sent c = Some {| status := 500;
                   content := Json (JObj {[ "error"%string :=
                                              JStr "Errore toggle task" ]}) |}
  /\ console c = [("Errore PATCH task"%string, ReferenceError "db")]
  /\ table (store c) = [t5].
Proof.
  pose proof (patch_has_no_404 "99" (as_shipped [t5] 1)) as H.
  cbv beta iota zeta in H. destruct H as (_ & _ & Hshipped).
  exact (Hshipped [] eq_refl).
Defined.

(** C1, as the claim states it, fails: the store holds no task 99, and
    DELETE /api/tasks/99 is answered 500 {error: "Errore eliminazione
    task"}. *)
Lemma delete_task_absent_is_not_404 :
  let d := as_shipped [t5] 1 in
  (forall t, t ∈ table d -> task_id t <> 99)
  /\ sent (handle (delete_task "99") d).2
       = Some {| status := 500;
                 content := Json (JObj {[ "error"%string :=
                                            JStr "Errore eliminazione task" ]}) |}
  /\ ~ (exists r, sent (handle (delete_task "99") d).2 = Some r /\ status r = 404).
Proof.
  split.
  - intros t Ht. apply list_elem_of_singleton in Ht. subst t. discriminate.
  - split; [reflexivity|].
    intros (r & Hr & Hs). cbn in Hr. injection Hr as <-. discriminate Hs.
Qed.

(** On the users server the same request does not reach the block that
    answers 404: the identifier [esle] is evaluated first, and the default
    error handler answers 500. *)
Lemma delete_users_absent_throws :
  findIndex (id_is (parseInt "99")) users = None
  /\ serve (delete_users "99") users
     = {| reply := Some {| status := 500;
                           content := ErrorPage (ReferenceError "esle") |};
          uncaught := Some (ReferenceError "esle");
          store_after := users |}.
Proof. split; reflexivity. Qed.

(** C1, amended. Whatever the path id, in the store or absent from it,
    DELETE /api/tasks/:id does not answer 404: the handler never looks at
    whether a row was deleted; it answers 500
    {error: "Errore eliminazione task"} when the query throws or is rejected
    and 200 {success: true} when it has fulfilled; as the file stands the
    query throws, the answer is the 500 and the table is not touched. *)
Theorem delete_task_has_no_404 (p : string) (d : database) :
  let '(settled, c) := handle (delete_task p) d in
  settled = Ok tt
  /\ sent c =
       Some (if all_run 1 (fate d)
             then {| status := 200;
                     content := Json (JObj {[ "success"%string := JBool true ]}) |}
             else {| status := 500;
                     content := Json (JObj {[ "error"%string :=
                                                JStr "Errore eliminazione task" ]}) |})
  /\ (forall r, sent c = Some r -> status r <> 404)
  /\ (forall f,
        fate d = Some db_unbound :: f ->
        sent c = Some {| status := 500;
                         content := Json (JObj {[ "error"%string :=
                                                    JStr "Errore eliminazione task" ]}) |}
        /\ console c = [("Errore DELETE task"%string, ReferenceError "db")]
        /\ table (store c) = table d).
Proof.
  rewrite handle_delete_task.
  destruct (fate d) as [|[e|] f'];
    cbn [answered caught sent console store table all_run];
    (split; [reflexivity|]); (split; [reflexivity|]);
    (split; [intros r Hr; injection Hr as <-; cbn; discriminate|]);
    intros f Hf; try discriminate Hf;
    injection Hf as -> _; repeat split; reflexivity.
Qed.

Lemma delete_task_has_no_404_witness :
  let '(settled, c) := handle (delete_task "99") (as_shipped [t5] 1) in
  sent c = Some {| status := 500;
                   content := Json (JObj {[ "error"%string :=
                                              JStr "Errore eliminazione task" ]}) |}
  /\ console c = [("Errore DELETE task"%string, ReferenceError "db")]
  /\ table (store c) = [t5].
Proof.
  pose proof (delete_task_has_no_404 "99" (as_shipped [t5] 1)) as H.
  cbv beta iota zeta in H. destruct H as (_ & _ & _ & Hshipped).
  exact (Hshipped [] eq_refl).
Defined.

(** ** Input validation *)



(** ** The gateway *)

Lemma http_request_refused (http : call -> exchange) (c : call) :
  refused (http c) = true -> http_request http c = Failed (raw_error (http c)).
Proof.
  unfold http_request, refused, raw_error.
  destruct (http c) as [|r]; [reflexivity|].
  destruct ((200 <=? status r) && (status r <? 300)); [discriminate | reflexivity].
Qed.

Lemma catchError_never_raw
    (message label : string) (source : notification) (st : Z) (ct : payload) :
  (catchError (fun err => (throwError (fun _ => DomainError message),
                           [(label, err)])) source).1
    <> Failed (HttpErrorResponse st ct).
Proof. destruct source; cbn; discriminate. Qed.

(** C8. For each of getUsers, addUser and removeUser: when the exchange
    gets no answer or an answer outside 2xx, the error object of HttpClient
    goes to the console under the operation's label and the caller is
    notified of an Error carrying the operation's message; and in no case at
    all is the caller notified of the HttpClient error object. *)
Theorem gateway_signals_domain_errors (http : call -> exchange) :
  (let c := {| verb := GET; url := apiUrl; data := None |} in
   refused (http c) = true ->
   getUsers http
     = (Failed (DomainError "Errore nel recupero degli utenti"),
        [("Errore nel recupero utenti"%string, raw_error (http c))]))
  /\ (forall user,
        let c := {| verb := POST; url := apiUrl; data := Some user |} in
        refused (http c) = true ->
        addUser http user
          = (Failed (DomainError "Errore nell’aggiunta dell’utente."),
             [("Errore nell’aggiunta utente"%string, raw_error (http c))]))
  /\ (forall id,
        let c := {| verb := DELETE;
                    url := (apiUrl +:+ "/" +:+ Number_toString id +:+ "}")%string;
                    data := None |} in
        refused (http c) = true ->
        removeUser http id
          = (Failed (DomainError "Errore nella cancellazione dell’utente."),
             [("Errore nella cancellazione utente"%string, raw_error (http c))]))
  /\ (forall st ct user id,
        (getUsers http).1 <> Failed (HttpErrorResponse st ct)
        /\ (addUser http user).1 <> Failed (HttpErrorResponse st ct)
        /\ (removeUser http id).1 <> Failed (HttpErrorResponse st ct)).
Proof.
  split; [|split; [|split]].
  - intros c Hc. unfold getUsers. fold c.
    now rewrite (http_request_refused http c Hc).
  - intros user c Hc. unfold addUser. fold c.
    now rewrite (http_request_refused http c Hc).
  - intros id c Hc. unfold removeUser. fold c.
    now rewrite (http_request_refused http c Hc).
  - intros st ct user id. repeat split; apply catchError_never_raw.
Qed.

Lemma gateway_signals_domain_errors_witness :
  let http := fun c : call =>
                match verb c with
                | GET => NoAnswer
                | _ => Answer {| status := 404; content := NotFoundPage |}
                end in
  getUsers http
    = (Failed (DomainError "Errore nel recupero degli utenti"),
       [("Errore nel recupero utenti"%string, HttpErrorResponse 0 Empty)])
  /\ addUser http (JObj ∅)
     = (Failed (DomainError "Errore nell’aggiunta dell’utente."),
        [("Errore nell’aggiunta utente"%string, HttpErrorResponse 404 NotFoundPage)])
  /\ removeUser http 7
     = (Failed (DomainError "Errore nella cancellazione dell’utente."),
        [("Errore nella cancellazione utente"%string,
          HttpErrorResponse 404 NotFoundPage)]).
Proof.
  intros http.
  destruct (gateway_signals_domain_errors http) as (Hget & Hadd & Hdel & _).
  split; [exact (Hget eq_refl)|].
  split; [exact (Hadd (JObj ∅) eq_refl) | exact (Hdel 7 eq_refl)].
Defined.

(** ** The stray brace of removeUser *)

Lemma append_cons (c : ascii) (s r : string) :
  (String c s +:+ r)%string = String c (s +:+ r).
Proof. reflexivity. Qed.

Section DecimalText.

Lemma of_uint_acc_value (d : uint) :
  forall acc : positive,
    Z.pos (Pos.of_uint_acc d acc) = uint_value (Z.pos acc) d.
Proof.
  induction d; intros acc; cbn [Pos.of_uint_acc uint_value];
    try reflexivity; rewrite IHd; f_equal; lia.
Qed.

Lemma of_uint_value (d : uint) : Z.of_N (Pos.of_uint d) = uint_value 0 d.
Proof.
  induction d; cbn [Pos.of_uint uint_value]; try reflexivity;
    try (cbn [Z.of_N]; rewrite of_uint_acc_value; reflexivity).
  exact IHd.
Qed.

Lemma to_uint_value (p : positive) : uint_value 0 (Pos.to_uint p) = Z.pos p.
Proof.
  rewrite <- of_uint_value, DecimalPos.Unsigned.of_to. reflexivity.
Qed.

Lemma digit_value_x (c : ascii) :
  digit_value c = None -> (Ascii.eqb c "x" || Ascii.eqb c "X") = false.
Proof.
  intros H.
  destruct (Ascii.eqb_spec c "x") as [->|_]; [discriminate H|].
  destruct (Ascii.eqb_spec c "X") as [->|_]; [discriminate H|].
  reflexivity.
Qed.

Variable rest : string.
Hypothesis rest_stops : stops rest.

Lemma digits_from_stops (v : Z) : digits_from 10 v rest = v.
Proof.
  destruct rest as [|c r]; [reflexivity|].
  cbn in *. now rewrite rest_stops.
Qed.

Lemma digits_from_numeral (d : uint) :
  forall acc,
    digits_from 10 acc (NilEmpty.string_of_uint d +:+ rest) = uint_value acc d.
Proof.
  induction d; intros acc; cbn [NilEmpty.string_of_uint uint_value];
    [apply digits_from_stops | ..]; rewrite append_cons; apply IHd.
Qed.

(** No numeral goes on with the x of a radix prefix. *)
Lemma numeral_no_x (d : uint) :
  match (NilEmpty.string_of_uint d +:+ rest)%string with
  | String x _ => (Ascii.eqb x "x" || Ascii.eqb x "X") = false
  | EmptyString => True
  end.
Proof.
  destruct d; cbn [NilEmpty.string_of_uint]; rewrite ?append_cons;
    try reflexivity.
  change ("" +:+ rest)%string with rest.
  destruct rest as [|c r]; [exact I|]. now apply digit_value_x.
Qed.

(** The steps of parseInt before the digits leave a numeral alone. *)
Lemma numeral_prefix (d : uint) :
  d <> Nil ->
  let s := (NilEmpty.string_of_uint d +:+ rest)%string in
  trim_start s = s
  /\ split_sign s = (1, s)
  /\ split_radix s = (10, s)
  /\ starts_with_digit 10 s = true.
Proof.
  intros Hd.
  destruct d as [|d|d|d|d|d|d|d|d|d|d]; [contradiction|..];
    cbn [NilEmpty.string_of_uint]; rewrite append_cons;
    pose proof (numeral_no_x d) as Hx;
    destruct (NilEmpty.string_of_uint d +:+ rest)%string as [|x s'];
    repeat split; cbn; now rewrite ?Hx.
Qed.

Lemma parseInt_numeral (d : uint) :
  d <> Nil ->
  parseInt (NilEmpty.string_of_uint d +:+ rest) = Some (uint_value 0 d).
Proof.
  intros Hd. destruct (numeral_prefix d Hd) as (Ht & Hs & Hr & Hdig).
  unfold parseInt, parse_digits. rewrite Ht, Hs. cbv beta iota.
  rewrite Hr. cbv beta iota. rewrite Hdig, digits_from_numeral.
  f_equal; lia.
Qed.

Lemma parseInt_negative_numeral (d : uint) :
  d <> Nil ->
  parseInt (String "-" (NilEmpty.string_of_uint d +:+ rest)) = Some (- uint_value 0 d).
Proof.
  intros Hd. destruct (numeral_prefix d Hd) as (_ & _ & Hr & Hdig).
  unfold parseInt, parse_digits.
  change (trim_start (String "-" ?s)) with (String "-" s).
  change (split_sign (String "-" ?s)) with (-1, s).
  cbv beta iota. rewrite Hr. cbv beta iota.
  rewrite Hdig, digits_from_numeral. f_equal; lia.
Qed.

(** parseInt reads back the integer that was printed, whatever text that
    is not a digit follows. *)
Lemma parseInt_toString (n : Z) :
  parseInt (Number_toString n +:+ rest) = Some n.
Proof.
  unfold Number_toString.
  destruct n as [|p|p]; cbn [Z.to_int NilZero.string_of_int].
  - change (NilZero.string_of_uint zero) with (NilEmpty.string_of_uint (D0 Nil)).
    now rewrite parseInt_numeral.
  - pose proof (DecimalPos.Unsigned.to_uint_nonnil p) as Hne.
    unfold NilZero.string_of_uint.
    destruct (Pos.to_uint p) eqn:E; [contradiction|..];
      rewrite <- E in *; rewrite parseInt_numeral by exact Hne;
      now rewrite to_uint_value.
  - pose proof (DecimalPos.Unsigned.to_uint_nonnil p) as Hne.
    unfold NilZero.string_of_uint.
    destruct (Pos.to_uint p) eqn:E; [contradiction|..];
      rewrite <- E in *;
      change (String "-" ?a +:+ ?b)%string with (String "-" (a +:+ b));
      rewrite parseInt_negative_numeral by exact Hne;
      now rewrite to_uint_value.
Qed.

End DecimalText.

Lemma parseInt_toString_alone (n : Z) : parseInt (Number_toString n) = Some n.
Proof.
  rewrite <- (parseInt_toString "" I n). f_equal.
  induction (Number_toString n) as [|c s IH]; [reflexivity|].
  rewrite append_cons. now f_equal.
Qed.

(** *** The path segment the route captures *)

Lemma segment_whole (s : string) :
  s <> EmptyString -> no_slash s = true -> segment s = Some s.
Proof.
  induction s as [|c s IH]; [congruence|]. intros _ Hs.
  cbn [no_slash] in Hs. apply andb_prop in Hs as [Hc Hs].
  cbn [segment]. apply negb_true_iff in Hc. rewrite Hc.
  destruct s as [|c' s']; [reflexivity|].
  assert (Hc' : Ascii.eqb c' "/" = false).
  { cbn [no_slash] in Hs. apply andb_prop in Hs as [Hc' _].
    now apply negb_true_iff in Hc'. }
  replace (String.eqb (String c' s') "" || String.eqb (String c' s') "/")
    with false by (cbn; now rewrite Hc').
  rewrite IH by (congruence || exact Hs). reflexivity.
Qed.

Lemma no_slash_numeral (d : uint) (rest : string) :
  no_slash (NilEmpty.string_of_uint d +:+ rest) = no_slash rest.
Proof.
  induction d; cbn [NilEmpty.string_of_uint]; rewrite ?append_cons;
    try reflexivity; cbn [no_slash]; exact IHd.
Qed.

Lemma toString_segment (n : Z) (rest : string) :
  no_slash (Number_toString n +:+ rest) = no_slash rest
  /\ (Number_toString n +:+ rest)%string <> EmptyString.
Proof.
  unfold Number_toString.
  destruct n as [|p|p]; cbn [Z.to_int NilZero.string_of_int].
  - split; [reflexivity | discriminate].
  - pose proof (DecimalPos.Unsigned.to_uint_nonnil p) as Hne.
    unfold NilZero.string_of_uint.
    destruct (Pos.to_uint p) eqn:E; [contradiction|..]; rewrite <- E;
      (split; [apply no_slash_numeral|]);
      rewrite E; cbn [NilEmpty.string_of_uint]; rewrite append_cons; discriminate.
  - rewrite append_cons. split; [|discriminate].
    cbn [no_slash]. unfold NilZero.string_of_uint.
    destruct (Pos.to_uint p) eqn:E; try (rewrite <- E; apply no_slash_numeral).
    reflexivity.
Qed.

Lemma route_captures (seg : string) :
  seg <> EmptyString -> no_slash seg = true ->
  match_param "/api/users" ("/api/users/" +:+ seg) = Some seg.
Proof.
  intros Hne Hs. unfold match_param.
  change (strip_prefix ("/api/users" +:+ "/") ("/api/users/" +:+ seg))
    with (Some seg).
  now apply segment_whole.
Qed.

Lemma findIndex_finds {A} (p : A -> bool) (arr : list A) :
  (exists x, x ∈ arr /\ p x = true) ->
  exists i x, findIndex p arr = Some i /\ arr !! i = Some x /\ p x = true.
Proof.
  induction arr as [|a arr IH]; intros (x & Hin & Hx).
  - now apply elem_of_nil in Hin.
  - cbn [findIndex]. destruct (p a) eqn:Ha.
    + exists O, a. auto.
    + apply elem_of_cons in Hin as [->|Hin]; [congruence|].
      destruct IH as (i & y & Hi & Hy & Hpy); [eauto|].
      exists (S i), y. rewrite Hi. auto.
Qed.

Lemma removeUser_integer (http : call -> exchange) (n : Z) :
  removeUser http n = removeUser_number http (Integer n).
Proof. reflexivity. Qed.

(** C10, as the claim states it, fails: for the numeric id 1.5, which is no
    integer, removeUser calls the URL that ends in 1.5 and the brace, the
    route matches, parseInt of the captured text is 1, and the entity with id
    1 is deleted. *)
Lemma removeUser_fraction_targets_other_id :
  well_formed (Half 1)
  /\ as_integer (Half 1) = None
  /\ (removeUser_number echo_url (Half 1)).1
     = Next (JStr "http://localhost:8080/api/users/1.5}")
  /\ match_param "/api/users" "/api/users/1.5}" = Some "1.5}"%string
  /\ parseInt "1.5}" = Some 1
  /\ uid <$> store_after
               (serve (app {| meth := DELETE; path := "/api/users/1.5}";
                              body := ∅ |})
                      users) = [2].
Proof.
  split; [cbn; lia|]. repeat split; reflexivity.
Qed.

(** C10, amended. For an integer id n that is a safe integer (magnitude at
    most 2^53 - 1, as every id the server holds), removeUser calls the URL
    made of apiUrl, a slash, the digits of n and a closing brace; the route
    /api/users/:id matches the path of that URL and captures the digits with
    the brace; parseInt of the captured text is n; so the request is handled
    as a delete of id n, and when the array holds an entity with id n, one
    such entity is taken out of the array and sent back. *)
Theorem removeUser_brace_still_targets_id (n : Z) :
  well_formed (Integer n) ->
  let seg := (Number_toString n +:+ "}")%string in
  let target := (apiUrl +:+ "/" +:+ seg)%string in
  (removeUser echo_url n).1 = Next (JStr target)
  /\ pathname target = Some ("/api/users/" +:+ seg)%string
  /\ match_param "/api/users" ("/api/users/" +:+ seg) = Some seg
  /\ parseInt seg = Some n
  /\ (forall us b,
        let req := {| meth := DELETE; path := ("/api/users/" +:+ seg)%string;
                      body := b |} in
        serve (app req) us = serve (delete_users (Number_toString n)) us
        /\ ((exists u, u ∈ us /\ uid u = n) ->
            exists i v,
              us !! i = Some v /\ uid v = n
              /\ reply (serve (app req) us)
                   = Some {| status := 200; content := Json (user_json v) |}
              /\ store_after (serve (app req) us) = delete i us)).
Proof.
  intros _ seg target.
  assert (Hparse : parseInt seg = Some n)
    by (apply parseInt_toString; reflexivity).
  assert (Hroute : match_param "/api/users" ("/api/users/" +:+ seg) = Some seg).
  { destruct (toString_segment n "}") as [Hs Hne].
    apply route_captures; [exact Hne | exact Hs]. }
  split; [reflexivity|]. split; [reflexivity|].
  split; [exact Hroute|]. split; [exact Hparse|].
  intros us b req.
  assert (Happ : app req = delete_users seg).
  { unfold app, req. cbn [meth path]. now rewrite Hroute. }
  rewrite Happ, !serve_delete_users, Hparse, parseInt_toString_alone.
  split; [reflexivity|].
  intros (u & Hin & Hu).
  destruct (findIndex_finds (id_is (Some n)) us) as (i & v & Hi & Hv & Hpv).
  { exists u. split; [exact Hin|]. cbn. lia. }
  exists i, v. rewrite Hi, Hv. cbn [reply store_after].
  split; [reflexivity|]. split; [cbn in Hpv; lia|].
  split; [reflexivity|]. now rewrite delete_take_drop.
Qed.

Lemma removeUser_brace_still_targets_id_witness :
  (removeUser echo_url 2).1 = Next (JStr "http://localhost:8080/api/users/2}")
  /\ parseInt "2}" = Some 2
  /\ uid <$> store_after
               (serve (app {| meth := DELETE; path := "/api/users/2}"; body := ∅ |})
                      users) = [1]
  /\ exists i v,
       users !! i = Some v /\ uid v = 2
       /\ reply (serve (app {| meth := DELETE; path := "/api/users/2}"; body := ∅ |})
                       users)
            = Some {| status := 200; content := Json (user_json v) |}
       /\ store_after
            (serve (app {| meth := DELETE; path := "/api/users/2}"; body := ∅ |})
                   users) = delete i users.
Proof.
  assert (Hsafe : well_formed (Integer 2)) by (cbn; lia).
  destruct (removeUser_brace_still_targets_id 2 Hsafe)
    as (Hurl & _ & _ & Hparse & Hserve).
  split; [exact Hurl|]. split; [exact Hparse|].
  destruct (Hserve users ∅) as [Heq Hfound].
  split; [reflexivity|].
  refine (Hfound _).
  exists {| uid := 2;
            props := {[ "name"%string := JStr "Giulia Bianchi";
                        "email"%string := JStr "giulia@prova.com" ]} |}.
  split; [|reflexivity].
  apply list_elem_of_further, list_elem_of_here.
Defined.

(** * Further properties *)

(** ** The users server: creates and deletes together *)

Lemma append_empty (s : string) : (s +:+ "")%string = s.
Proof. induction s as [|c s IH]; [reflexivity|]. rewrite append_cons. now f_equal. Qed.

Lemma app_delete_request (n : Z) :
  app (delete_request n) = delete_users (Number_toString n).
Proof.
  unfold app, delete_request. cbn [meth path].
  destruct (toString_segment n EmptyString) as [Hs Hne].
  rewrite append_empty in Hs, Hne.
  now rewrite (route_captures (Number_toString n) Hne Hs).
Qed.

Lemma findIndex_last {A} (p : A -> bool) (arr : list A) (x : A) :
  (forall y, y ∈ arr -> p y = false) -> p x = true ->
  findIndex p (arr ++ [x]) = Some (length arr).
Proof.
  intros Hno Hx. induction arr as [|a arr IH].
  - change ([] ++ [x]) with [x]. cbn [findIndex length]. now rewrite Hx.
  - change ((a :: arr) ++ [x]) with (a :: (arr ++ [x])). cbn [findIndex length].
    rewrite (Hno a) by left.
    rewrite IH; [reflexivity|]. intros y Hy. apply Hno. now right.
Qed.

Lemma findIndex_none {A} (p : A -> bool) (arr : list A) :
  (forall y, y ∈ arr -> p y = false) -> findIndex p arr = None.
Proof.
  intros Hno. induction arr as [|a arr IH]; [reflexivity|].
  cbn [findIndex]. rewrite (Hno a) by left.
  rewrite IH; [reflexivity|]. intros y Hy. apply Hno. now right.
Qed.

Lemma delete_last {A} (arr : list A) (x : A) :
  take (length arr) (arr ++ [x]) ++ drop (S (length arr)) (arr ++ [x]) = arr.
Proof.
  rewrite take_app_length.
  rewrite drop_ge by (rewrite length_app; cbn; lia).
  apply app_nil_r.
Qed.

Lemma post_then_delete (draft : gmap string json) (us : list user) :
  let newUser := {| uid := next_id us; props := delete "id"%string draft |} in
  serve (app (delete_request (next_id us))) (us ++ [newUser])
    = {| reply := Some {| status := 200; content := Json (user_json newUser) |};
         uncaught := Some (ReferenceError "esle");
         store_after := us |}.
Proof.
  intros newUser.
  rewrite app_delete_request, serve_delete_users, parseInt_toString_alone.
  rewrite findIndex_last.
  - rewrite delete_last, lookup_app_r by lia. now rewrite Nat.sub_diag.
  - intros y Hy. pose proof (next_id_above us y Hy). cbn. lia.
  - cbn. lia.
Qed.

(** X1. Deleting the id a create has just been answered with puts the array
    back as it was before the create, and sends back the entity the create
    returned. *)
Theorem create_then_delete_restores (draft : gmap string json) (us : list user) :
  let created := serve (app (create draft)) us in
  let deleted := serve (app (delete_request (next_id us))) (store_after created) in
  store_after deleted = us
  /\ reply deleted = reply created.
Proof.
  intros created deleted. subst created deleted.
  change (app (create draft)) with (post_users draft).
  rewrite serve_post_users. cbn [store_after reply].
  rewrite post_then_delete. split; reflexivity.
Qed.

(** X2. An id is not reserved for the entity that got it: when the entity
    created last is deleted, the next create is answered with the same id
    again, for a different entity. *)
Theorem deleted_id_is_assigned_again
    (first second : gmap string json) (us : list user) :
  let '(replies, us') :=
    run [create first; delete_request (next_id us); create second] us in
  reply_id <$> replies
    = [Some (next_id us); Some (next_id us); Some (next_id us)]
  /\ us' = us ++ [ {| uid := next_id us; props := delete "id"%string second |} ].
Proof.
  rewrite !run_cons. cbn [run fst snd].
  change (app (create first)) with (post_users first).
  rewrite serve_post_users. cbn [store_after reply].
  rewrite post_then_delete. cbn [store_after reply].
  change (app (create second)) with (post_users second).
  rewrite serve_post_users. cbn [store_after reply].
  split; [|reflexivity].
  rewrite !user_json_created. cbn. now rewrite !lookup_insert_eq.
Qed.

Lemma filter_all {A} (f : A -> bool) (l : list A) :
  (forall x, x ∈ l -> f x = true) -> List.filter f l = l.
Proof.
  intros Hall. induction l as [|a l IH]; [reflexivity|].
  cbn [List.filter]. rewrite (Hall a) by left.
  f_equal. apply IH. intros x Hx. apply Hall. now right.
Qed.

Lemma delete_first_filter (n : Z) (us : list user) :
  NoDup (uid <$> us) ->
  match findIndex (id_is (Some n)) us with
  | Some i => take i us ++ drop (S i) us
  | None => us
  end = List.filter (fun u => negb (uid u =? n)) us.
Proof.
  induction us as [|a us IH]; intros Hnd; [reflexivity|].
  rewrite fmap_cons in Hnd. apply NoDup_cons in Hnd as [Ha Hnd].
  cbn [findIndex id_is List.filter].
  destruct (uid a =? n) eqn:E; cbn [negb].
  - cbn [take drop]. change ([] ++ us) with us. symmetry. apply filter_all.
    intros x Hx. apply negb_true_iff, Z.eqb_neq. intros Heq.
    apply Ha. apply Z.eqb_eq in E. rewrite E, <- Heq.
    now apply list_elem_of_fmap_2.
  - specialize (IH Hnd). cbn [id_is] in IH.
    destruct (findIndex _ us) as [i|]; cbn [take drop]; now rewrite <- IH.
Qed.

Lemma same_id_same_user (us : list user) (u v : user) :
  NoDup (uid <$> us) -> u ∈ us -> v ∈ us -> uid u = uid v -> u = v.
Proof.
  induction us as [|a us IH]; intros Hnd Hu Hv Heq.
  - now apply elem_of_nil in Hu.
  - rewrite fmap_cons in Hnd. apply NoDup_cons in Hnd as [Ha Hnd].
    apply elem_of_cons in Hu as [->|Hu]; apply elem_of_cons in Hv as [->|Hv].
    + reflexivity.
    + exfalso. apply Ha. rewrite Heq. now apply list_elem_of_fmap_2.
    + exfalso. apply Ha. rewrite <- Heq. now apply list_elem_of_fmap_2.
    + now apply IH.
Qed.

Lemma store_after_delete_users (p : string) (us : list user) :
  store_after (serve (delete_users p) us)
    = match findIndex (id_is (parseInt p)) us with
      | Some i => take i us ++ drop (S i) us
      | None => us
      end.
Proof. rewrite serve_delete_users. now destruct (findIndex _ us). Qed.

(** X3. On an array with distinct ids, a delete whose path id reads as the
    number n leaves exactly the entities whose id is not n, in their order,
    and, when an entity has id n, answers 200 with that entity. *)
Theorem delete_users_removes_the_id (p : string) (n : Z) (us : list user) :
  parseInt p = Some n ->
  NoDup (uid <$> us) ->
  let o := serve (delete_users p) us in
  store_after o = List.filter (fun u => negb (uid u =? n)) us
  /\ (forall u, u ∈ store_after o -> uid u <> n)
  /\ (forall u, u ∈ us -> uid u = n ->
        reply o = Some {| status := 200; content := Json (user_json u) |}).
Proof.
  intros Hp Hnd o. subst o.
  rewrite store_after_delete_users, Hp, (delete_first_filter n us Hnd).
  split; [reflexivity|]. split.
  - intros u Hu. apply list_elem_of_In in Hu. apply filter_In in Hu as [_ Hu].
    apply negb_true_iff, Z.eqb_neq in Hu. exact Hu.
  - intros u Hu Hid. rewrite serve_delete_users, Hp.
    destruct (findIndex_finds (id_is (Some n)) us) as (i & v & Hi & Hv & Hpv).
    { exists u. split; [exact Hu|]. cbn. lia. }
    rewrite Hi, Hv. cbn [reply].
    replace v with u; [reflexivity|].
    apply (same_id_same_user us); [exact Hnd | exact Hu | |].
    + apply list_elem_of_lookup. eauto.
    + cbn in Hpv. lia.
Qed.

Lemma delete_users_removes_the_id_witness :
  let o := serve (delete_users "1") users in
  uid <$> store_after o = [2]
  /\ (forall u, u ∈ store_after o -> uid u <> 1).
Proof.
  assert (Hnd : NoDup (uid <$> users)).
  { apply NoDup_cons_2; [|apply NoDup_singleton].
    intros H%list_elem_of_singleton. discriminate H. }
  destruct (delete_users_removes_the_id "1" 1 users eq_refl Hnd)
    as (Hstore & Hgone & _).
  split; [|exact Hgone].
  exact (f_equal (fmap uid) Hstore).
Defined.

(** X4. For a DELETE request that reaches the handler of /api/users/:id
    with the decoded path id p, on an array whose ids are safe integers: the
    ReferenceError of [esle] always escapes the handler, after the entity was
    removed and sent when the id was found; the answer is 200 or 500 and the
    block that answers 404 is never reached; and when parseInt reads no
    number in p, or a number that no entity has as its id, the answer is the
    500 of the default error handler and the array is as before. *)
Theorem delete_users_never_reaches_404 (p : string) (us : list user) :
  (forall u, u ∈ us -> Z.abs (uid u) <= 2 ^ 53 - 1) ->
  let o := serve (delete_users p) us in
  uncaught o = Some (ReferenceError "esle")
  /\ (exists r, reply o = Some r /\ (status r = 200 \/ status r = 500))
  /\ ((forall u, u ∈ us -> Some (uid u) <> parseInt p) ->
      reply o = Some {| status := 500;
                        content := ErrorPage (ReferenceError "esle") |}
      /\ store_after o = us).
Proof.
  intros _ o. subst o. rewrite serve_delete_users. split; [|split].
  - now destruct (findIndex _ us).
  - destruct (findIndex _ us); cbn; eauto.
  - intros Habsent. rewrite findIndex_none; [split; reflexivity|].
    intros u Hu. specialize (Habsent u Hu). unfold id_is.
    destruct (parseInt p) as [n|]; [|reflexivity].
    apply Z.eqb_neq. congruence.
Qed.

Lemma delete_users_never_reaches_404_witness :
  reply (serve (delete_users "abc") users)
    = Some {| status := 500; content := ErrorPage (ReferenceError "esle") |}
  /\ store_after (serve (delete_users "abc") users) = users
  /\ reply (serve (delete_users "99") users)
     = Some {| status := 500; content := ErrorPage (ReferenceError "esle") |}.
Proof.
  assert (Hsafe : forall u, u ∈ users -> Z.abs (uid u) <= 2 ^ 53 - 1).
  { intros u Hu. apply elem_of_cons in Hu as [->|Hu]; [cbn; lia|].
    apply list_elem_of_singleton in Hu. subst u. cbn. lia. }
  destruct (delete_users_never_reaches_404 "abc" users Hsafe) as (_ & _ & Habc).
  destruct (delete_users_never_reaches_404 "99" users Hsafe) as (_ & _ & H99).
  destruct Habc as [Hr Hs]; [intros u _; discriminate|].
  destruct H99 as [Hr' _].
  { intros u Hu. apply elem_of_cons in Hu as [->|Hu]; [discriminate|].
    apply list_elem_of_singleton in Hu. subst u. discriminate. }
  split; [exact Hr|]. split; [exact Hs | exact Hr'].
Defined.

(** X5. GET /api/users answers 200 with every entity of the array, in the
    order of the array, whatever the body; and no GET or PATCH request, routed
    or not, changes the array. *)
Theorem users_reads_change_nothing :
  (forall us b,
      reply (serve (app {| meth := GET; path := "/api/users"; body := b |}) us)
        = Some {| status := 200; content := Json (JArr (user_json <$> us)) |})
  /\ (forall r us,
        meth r = GET \/ meth r = PATCH ->
        store_after (serve (app r) us) = us).
Proof.
  split; [reflexivity|].
  intros [m p b] us [Hm|Hm]; cbn in Hm; subst m; unfold app; cbn [meth path].
  - now destruct (match_literal _ p).
  - reflexivity.
Qed.

Lemma users_reads_change_nothing_witness :
  store_after
    (serve (app {| meth := PATCH; path := "/api/users/1"; body := ∅ |}) users)
    = users.
Proof.
  destruct users_reads_change_nothing as [_ Hsame].
  apply Hsame. now right.
Defined.

(** ** The tasks server: what a request can and cannot do *)

(** X6. Whatever the path id, the table and the fate of the queries, each
    of GET /api/tasks, PATCH /api/tasks/:id and DELETE /api/tasks/:id ends
    with its promise fulfilled and one response sent: 200 with nothing on the
    console when every query it sends runs, 500 with one console line when
    one is rejected. *)
Theorem tasks_handlers_contain_failures (r : tasks_route) (d : database) :
  let '(settled, c) := handle (route_handler r) d in
  settled = Ok tt
  /\ exists resp,
       sent c = Some resp
       /\ (if all_run (queries_sent r) (fate d)
           then status resp = 200 /\ console c = []
           else status resp = 500
                /\ exists label e, console c = [(label, e)]
                /\ exists message,
                     content resp
                       = Json (JObj {[ "error"%string := JStr message ]})).
Proof.
  destruct r as [|p|p]; cbn [route_handler queries_sent].
  - rewrite handle_get_tasks.
    destruct (fate d) as [|[e|] f]; cbn; eauto 10.
  - rewrite handle_patch_task.
    destruct (fate d) as [|[e|] [|[e'|] f]]; cbn; eauto 10.
  - rewrite handle_delete_task.
    destruct (fate d) as [|[e|] f]; cbn; eauto 10.
Qed.



(** ** The gateway and the component in front of the users server *)

Lemma getUsers_wire (us : list user) :
  getUsers (wire us) = (Next (JArr (user_json <$> us)), []).
Proof. reflexivity. Qed.

Lemma exchange_post (o : gmap string json) (us : list user) :
  exchange_with us (post_call o)
    = (Answer {| status := 200;
                 content := Json (JObj (<["id"%string := JNum (next_id us)]> o)) |},
       us ++ [ {| uid := next_id us; props := delete "id"%string o |} ]).
Proof.
  unfold exchange_with.
  change (to_request (post_call o)) with (Some (create o)).
  cbv beta iota zeta. change (app (create o)) with (post_users o).
  rewrite serve_post_users. cbn [reply store_after].
  now rewrite user_json_created.
Qed.

Lemma addUser_wire (o : gmap string json) (us : list user) :
  addUser (wire us) (JObj o)
    = (Next (JObj (<["id"%string := JNum (next_id us)]> o)), []).
Proof.
  unfold addUser, http_request, wire. fold (post_call o).
  now rewrite exchange_post.
Qed.

(** X11. Through the gateway, the users server answers getUsers with its
    whole array, in order, and addUser with the object sent, its id replaced
    by the next id of the array, which it appends; neither call writes to the
    console. *)
Theorem gateway_in_front_of_server (us : list user) :
  getUsers (wire us) = (Next (JArr (user_json <$> us)), [])
  /\ (forall o,
        addUser (wire us) (JObj o)
          = (Next (JObj (<["id"%string := JNum (next_id us)]> o)), [])
        /\ (exchange_with us (post_call o)).2
           = us ++ [ {| uid := next_id us; props := delete "id"%string o |} ]).
Proof.
  split; [apply getUsers_wire|].
  intros o. split; [apply addUser_wire|]. now rewrite exchange_post.
Qed.

(** X12. When an exchange gets no answer or an answer outside 2xx, the
    component keeps its list and its form as they are: the constructor leaves
    the list empty and logs, addUser logs and does not clear the form,
    removeUser puts the gateway's Error, with its fixed message, in an
    alert. *)
Theorem component_keeps_state_on_failure
    (http : call -> exchange) (c : UsersComponent.component) (id : Z) :
  (let k := {| verb := GET; url := apiUrl; data := None |} in
   refused (http k) = true ->
   UsersComponent.constructor http
     = {| UsersComponent.users := JArr [];
          UsersComponent.newUser := UsersComponent.blank;
          UsersComponent.userIdToRemove := 0;
          UsersComponent.logged :=
            [("Errore nel recupero utenti"%string, raw_error (http k));
             ("Errore caricamento utenti"%string,
              DomainError "Errore nel recupero degli utenti")];
          UsersComponent.alerted := [] |})
  /\ (let k := post_call (UsersComponent.newUser c) in
      refused (http k) = true ->
      UsersComponent.addUser http c
        = UsersComponent.Done
            {| UsersComponent.users := UsersComponent.users c;
               UsersComponent.newUser := UsersComponent.newUser c;
               UsersComponent.userIdToRemove := UsersComponent.userIdToRemove c;
               UsersComponent.logged :=
                 UsersComponent.logged c
                   ++ [("Errore nell’aggiunta utente"%string, raw_error (http k))]
                   ++ [("Errore aggiunta utente"%string,
                        DomainError "Errore nell’aggiunta dell’utente.")];
               UsersComponent.alerted := UsersComponent.alerted c |})
  /\ (let k := {| verb := DELETE;
                  url := (apiUrl +:+ "/" +:+ Number_toString id +:+ "}")%string;
                  data := None |} in
      refused (http k) = true ->
      UsersComponent.removeUser http id c
        = UsersComponent.Done
            {| UsersComponent.users := UsersComponent.users c;
               UsersComponent.newUser := UsersComponent.newUser c;
               UsersComponent.userIdToRemove := UsersComponent.userIdToRemove c;
               UsersComponent.logged :=
                 UsersComponent.logged c
                   ++ [("Errore nella cancellazione utente"%string,
                        raw_error (http k))];
               UsersComponent.alerted :=
                 UsersComponent.alerted c
                   ++ [DomainError "Errore nella cancellazione dell’utente."] |}).
Proof.
  split; [|split].
  - intros k Hk.
    unfold UsersComponent.constructor, getUsers. fold k.
    now rewrite (http_request_refused http k Hk).
  - intros k Hk.
    unfold UsersComponent.addUser, addUser. fold (post_call (UsersComponent.newUser c)).
    fold k. now rewrite (http_request_refused http k Hk).
  - intros k Hk.
    unfold UsersComponent.removeUser, removeUser. fold k.
    now rewrite (http_request_refused http k Hk).
Qed.

Lemma component_keeps_state_on_failure_witness :
  UsersComponent.users (UsersComponent.constructor (fun _ => NoAnswer)) = JArr []
  /\ UsersComponent.state
       (UsersComponent.removeUser (fun _ => NoAnswer) 7
          (UsersComponent.constructor (wire users)))
     = {| UsersComponent.users := JArr (user_json <$> users);
          UsersComponent.newUser := UsersComponent.blank;
          UsersComponent.userIdToRemove := 0;
          UsersComponent.logged :=
            [("Errore nella cancellazione utente"%string,
              HttpErrorResponse 0 Empty)];
          UsersComponent.alerted :=
            [DomainError "Errore nella cancellazione dell’utente."] |}.
Proof.
  split.
  - destruct (component_keeps_state_on_failure (fun _ => NoAnswer)
                (UsersComponent.constructor (wire users)) 7) as (Hc & _ & _).
    now rewrite (Hc eq_refl).
  - destruct (component_keeps_state_on_failure (fun _ => NoAnswer)
                (UsersComponent.constructor (wire users)) 7) as (_ & _ & Hr).
    now rewrite (Hr eq_refl).
Defined.

Lemma filter_out_spec (id : Z) (xs : list json) :
  match UsersComponent.filter_out id xs with
  | Some kept =>
      (JNull ∉ xs)
      /\ (kept `sublist_of` xs)
      /\ (forall x, x ∈ kept <-> x ∈ xs /\ UsersComponent.differs id x = Some true)
  | None => JNull ∈ xs
  end.
Proof.
  induction xs as [|x xs IH]; cbn [UsersComponent.filter_out].
  - split; [apply not_elem_of_nil|]. split; [constructor|].
    intros y. split; [intros H; now apply elem_of_nil in H|].
    intros [H _]. now apply elem_of_nil in H.
  - destruct (UsersComponent.differs id x) as [keep|] eqn:Ex.
    + destruct (UsersComponent.filter_out id xs) as [rest|].
      * destruct IH as (Hnull & Hsub & Hin).
        assert (Hx : x <> JNull) by (intros ->; discriminate Ex).
        split; [intros H; apply elem_of_cons in H as [H|H]; congruence|].
        destruct keep.
        -- split; [now constructor|].
           intros y. rewrite !elem_of_cons, Hin. split.
           ++ intros [->|[H1 H2]]; auto.
           ++ intros [[->|H1] H2]; auto.
        -- split; [now constructor|].
           intros y. rewrite elem_of_cons, Hin. split.
           ++ intros [H1 H2]; auto.
           ++ intros [[->|H1] H2]; [congruence | auto].
      * now right.
    + destruct x; try discriminate Ex. left.
Qed.

Lemma filter_out_objects (id : Z) (os : list (gmap string json)) :
  UsersComponent.filter_out id (JObj <$> os)
    = Some (JObj <$> List.filter
                       (fun o => match o !! "id"%string with
                                 | Some (JNum n) => negb (n =? id)
                                 | _ => true
                                 end) os).
Proof.
  induction os as [|o os IH]; [reflexivity|].
  rewrite fmap_cons. cbn [UsersComponent.filter_out UsersComponent.differs].
  rewrite IH. cbn [List.filter].
  destruct (o !! "id"%string) as [[| |n| | |]|]; try reflexivity.
  now destruct (n =? id).
Qed.

(** X13. When the delete call yields a value, removeUser(id) on a local
    list of objects keeps the objects whose id property is not the number id
    (an object with no id, or with an id that is no number, stays) and drops
    the others, in order; on a list that holds a null, reading its id throws
    and the list stays whole. *)
Theorem component_removeUser_filters
    (http : call -> exchange) (id : Z) (c : UsersComponent.component)
    (v : json) (lines : list (string * failure)) :
  removeUser http id = (Next v, lines) ->
  (forall os,
      UsersComponent.users c = JArr (JObj <$> os) ->
      UsersComponent.removeUser http id c
        = UsersComponent.Done
            {| UsersComponent.users :=
                 JArr (JObj <$> List.filter
                                  (fun o => match o !! "id"%string with
                                            | Some (JNum n) => negb (n =? id)
                                            | _ => true
                                            end) os);
               UsersComponent.newUser := UsersComponent.newUser c;
               UsersComponent.userIdToRemove := UsersComponent.userIdToRemove c;
               UsersComponent.logged := UsersComponent.logged c ++ lines;
               UsersComponent.alerted := UsersComponent.alerted c |})
  /\ (forall xs,
        UsersComponent.users c = JArr xs ->
        JNull ∈ xs ->
        UsersComponent.removeUser http id c
          = UsersComponent.TypeError
              {| UsersComponent.users := JArr xs;
                 UsersComponent.newUser := UsersComponent.newUser c;
                 UsersComponent.userIdToRemove := UsersComponent.userIdToRemove c;
                 UsersComponent.logged := UsersComponent.logged c ++ lines;
                 UsersComponent.alerted := UsersComponent.alerted c |}).
Proof.
  intros Hnext. split.
  - intros os Hos. unfold UsersComponent.removeUser.
    now rewrite Hnext, Hos, filter_out_objects.
  - intros xs Hxs Hnull. unfold UsersComponent.removeUser.
    rewrite Hnext, Hxs.
    pose proof (filter_out_spec id xs) as Hspec.
    destruct (UsersComponent.filter_out id xs) as [kept|]; [|reflexivity].
    destruct Hspec as [Hno _]. contradiction.
Qed.

Lemma component_removeUser_filters_witness :
  UsersComponent.users
    (UsersComponent.state
       (UsersComponent.removeUser echo_url 1
          (UsersComponent.constructor (wire users))))
    = JArr [ JObj {[ "id"%string := JNum 2;
                     "name"%string := JStr "Giulia Bianchi";
                     "email"%string := JStr "giulia@prova.com" ]} ]
  /\ UsersComponent.users
       (UsersComponent.state
          (UsersComponent.removeUser echo_url 1
             {| UsersComponent.users := JArr [JObj ∅; JNull];
                UsersComponent.newUser := UsersComponent.blank;
                UsersComponent.userIdToRemove := 0;
                UsersComponent.logged := [];
                UsersComponent.alerted := [] |}))
     = JArr [JObj ∅; JNull].
Proof.
  split.
  - destruct (component_removeUser_filters echo_url 1
                (UsersComponent.constructor (wire users))
                (JStr "http://localhost:8080/api/users/1}") [] eq_refl)
      as [Hobjects _].
    assert (Hos : UsersComponent.users (UsersComponent.constructor (wire users))
                  = JArr (JObj <$> ((fun u => <["id"%string := JNum (uid u)]> (props u))
                                      <$> users))) by reflexivity.
    rewrite (Hobjects _ Hos). reflexivity.
  - destruct (component_removeUser_filters echo_url 1
                {| UsersComponent.users := JArr [JObj ∅; JNull];
                   UsersComponent.newUser := UsersComponent.blank;
                   UsersComponent.userIdToRemove := 0;
                   UsersComponent.logged := [];
                   UsersComponent.alerted := [] |}
                (JStr "http://localhost:8080/api/users/1}") [] eq_refl)
      as [_ Hnull].
    rewrite (Hnull [JObj ∅; JNull] eq_refl); [reflexivity|].
    apply list_elem_of_further, list_elem_of_here.
Defined.

Lemma submit_step (i : string * string) (c : UsersComponent.component)
    (us : list user) :
  UsersComponent.users c = JArr (user_json <$> us) ->
  UsersComponent.newUser c = UsersComponent.blank ->
  let new := {| uid := next_id us; props := delete "id"%string (typed i) |} in
  submit i.1 i.2 (c, us)
    = ({| UsersComponent.users := JArr (user_json <$> (us ++ [new]));
          UsersComponent.newUser := UsersComponent.blank;
          UsersComponent.userIdToRemove := UsersComponent.userIdToRemove c;
          UsersComponent.logged := UsersComponent.logged c ++ [];
          UsersComponent.alerted := UsersComponent.alerted c |},
       us ++ [new]).
Proof.
  intros Hus Hnew new. unfold submit. cbn [fst snd].
  unfold UsersComponent.addUser.
  assert (Htyped : UsersComponent.newUser (UsersComponent.type_in i.1 i.2 c)
                   = typed i).
  { unfold UsersComponent.type_in, typed. cbn. now rewrite Hnew. }
  rewrite Htyped, addUser_wire, exchange_post. cbn [snd].
  unfold UsersComponent.type_in at 1. cbn [UsersComponent.users].
  rewrite Hus. cbn [UsersComponent.state]. f_equal.
  rewrite fmap_app. cbn [fmap list_fmap]. subst new.
  now rewrite user_json_created.
Qed.

Lemma session_snoc (inputs : list (string * string)) (i : string * string)
    (us : list user) :
  session (inputs ++ [i]) us = submit i.1 i.2 (session inputs us).
Proof. unfold session. now rewrite fold_left_app. Qed.

(** X14. In front of the users server, after the component is constructed
    and the form submitted any number of times, the list the component shows
    is the array of the server, entity by entity and in order, the form is
    blank again, nothing was logged or alerted, and the server holds what the
    same creates sent directly would have left. *)
Theorem component_mirrors_server (inputs : list (string * string)) (us : list user) :
  let w := session inputs us in
  UsersComponent.users w.1 = JArr (user_json <$> w.2)
  /\ UsersComponent.newUser w.1 = UsersComponent.blank
  /\ UsersComponent.logged w.1 = []
  /\ UsersComponent.alerted w.1 = []
  /\ w.2 = (run (create <$> (typed <$> inputs)) us).2
  /\ length w.2 = (length us + length inputs)%nat.
Proof.
  induction inputs as [|i inputs IH] using rev_ind.
  - cbn. repeat split; try reflexivity. lia.
  - rewrite session_snoc.
    destruct (session inputs us) as [c us'] eqn:E. cbn [fst snd] in IH.
    destruct IH as (Hus & Hnew & Hlog & Hal & Hrun & Hlen).
    rewrite (submit_step i c us' Hus Hnew). cbn [fst snd].
    cbn [UsersComponent.users UsersComponent.newUser UsersComponent.logged
         UsersComponent.alerted].
    rewrite Hlog, Hal.
    split; [reflexivity|]. split; [reflexivity|]. split; [reflexivity|].
    split; [reflexivity|]. split.
    + rewrite !fmap_app. cbn [fmap list_fmap].
      clear Hlen. revert us' Hrun E Hus. generalize (typed <$> inputs) as ds.
      intros ds us' Hrun _ _. subst us'.
      revert us. induction ds as [|d ds IHd]; intros us.
      * cbn. reflexivity.
      * rewrite !fmap_cons. change ((create d :: (create <$> ds)) ++ [create (typed i)])
          with (create d :: ((create <$> ds) ++ [create (typed i)])).
        rewrite !run_cons. cbn [snd]. apply IHd.
    + rewrite !length_app. cbn [length]. lia.
Qed.
